(** * Auto-Builder server: a shallow embedding of [server.js]

    The development follows the single-file Express server: the
    configuration constants, [verifySecret], [writeAttachments],
    [generateFilesWithLLM], [shortName], [createGithubRepoAndPush],
    [notifyEvaluationUrl] and the [POST /api-endpoint] handler.

    JavaScript values are an inductive type, numbers are binary64 floats,
    strings are lists of UTF-16 code units, the secret store is a finite
    map, and every call that leaves
    the process (file system, data-URI parser, generation backend, repository
    host, git, HTTP client, timers, console, the HTTP response) is an effect:
    it is recorded in a trace and answered by a [World], which may inspect the
    whole history of effects so far. *)

From Stdlib Require Import ZArith NArith String Ascii List Lia Floats.
From stdpp Require Import base option list gmap.

Set Default Proof Using "Type".
Set Warnings "-register-all".
Local Open Scope N_scope.

(** ** Strings *)

(** A JavaScript string is a sequence of 16-bit code units. *)
Abbreviation codeunit := N (only parsing).
Abbreviation jsstring := (list N) (only parsing).

(** Source literals are ASCII; [js] reads one off a Rocq string. *)
Fixpoint js (s : string) : jsstring :=
  match s with
  | EmptyString => []
  | String a r => N_of_ascii a :: js r
  end.

(** The characters that string literals cannot spell directly. *)
Definition nl : jsstring := [10].
Definition dq : jsstring := [34].
Definition hyphen : codeunit := 45.

(** [/[a-z0-9-]/i] without the [u] flag: case folding never maps a code unit
    above 127 to an ASCII letter, so the class is exactly the ASCII letters
    of both cases, the digits and the hyphen. *)
Definition in_class (c : codeunit) : bool :=
  ((97 <=? c) && (c <=? 122)) || ((65 <=? c) && (c <=? 90))
  || ((48 <=? c) && (c <=? 57)) || (c =? hyphen).

(** [s.replace(/[^a-z0-9-]/gi, '-')] *)
Definition replace_outside_class (s : jsstring) : jsstring :=
  map (fun c => if in_class c then c else hyphen) s.

(** [s.toLowerCase()] on the ASCII range. The receiver in [shortName] is the
    result of the replacement above, which holds ASCII code units only. *)
Definition toLowerCase (s : jsstring) : jsstring :=
  map (fun c => if (65 <=? c) && (c <=? 90) then c + 32 else c) s.

(** [s.slice(0, n)] and [s.slice(-n)] for a non-negative literal [n]. *)
Definition slice_to (n : nat) (s : jsstring) : jsstring := take n s.
Definition slice_last (n : nat) (s : jsstring) : jsstring :=
  drop (length s - n)%nat s.

(** Digits of [Number.prototype.toString(radix)]: 0-9 then a-z. *)
Definition digit_char (d : N) : codeunit :=
  if d <? 10 then 48 + d else 87 + d.

Fixpoint radix_digits (b : N) (fuel : nat) (n : N) : jsstring :=
  match fuel with
  | O => []
  | S f =>
      if n <? b then [digit_char n]
      else radix_digits b f (n / b) ++ [digit_char (n mod b)]
  end.

(** [n.toString(radix)] for an integer [n] that a double holds exactly, as
    every reading of [Date.now()] is; one more digit than [log2 n] is always
    enough fuel. *)
Definition Number_toString (radix : N) (n : Z) : jsstring :=
  let m := Z.to_N (Z.abs n) in
  (if (n <? 0)%Z then [hyphen] else [])
    ++ radix_digits radix (S (N.to_nat (N.log2 m))) m.

(** The target character set of a repository name, [a-z0-9-]. *)
Definition is_slug_char (c : codeunit) : bool :=
  ((97 <=? c) && (c <=? 122)) || ((48 <=? c) && (c <=? 57)) || (c =? hyphen).

Definition is_base36_char (c : codeunit) : bool :=
  ((97 <=? c) && (c <=? 122)) || ((48 <=? c) && (c <=? 57)).

(** ** JavaScript values *)

(** The values that a JSON body, a library reply or an object literal of the
    program can hold. Numbers are doubles; objects keep their own
    properties in insertion order. *)
Inductive JSValue :=
| JUndefined
| JNull
| JBool (b : bool)
| JNum (x : float)
| JStr (s : jsstring)
| JArr (xs : list JSValue)
| JObj (props : list (jsstring * JSValue)).

(** What a JavaScript [throw] carries. *)
Inductive Exn :=
| TypeError
| ReferenceError
| Error (msg : jsstring)
| Thrown (v : JSValue).

(** [!!v] *)
Definition truthy (v : JSValue) : bool :=
  match v with
  | JUndefined | JNull => false
  | JBool b => b
  | JNum x => negb (PrimFloat.eqb x 0%float || PrimFloat.is_nan x)   (* 0, -0, NaN *)
  | JStr s => match s with [] => false | _ => true end
  | JArr _ | JObj _ => true
  end.

(** [a || b] *)
Definition js_or (a b : JSValue) : JSValue := if truthy a then a else b.

(** Own property lookup in an object literal. *)
Fixpoint assoc (k : jsstring) (props : list (jsstring * JSValue)) : option JSValue :=
  match props with
  | [] => None
  | (k', v) :: r => if decide (k = k') then Some v else assoc k r
  end.

(** [v.k] and [const { k } = v] for a value that is neither [undefined] nor
    [null]. The property names the program reads (email, files, path, ...)
    are carried by objects only: arrays, strings, numbers and booleans yield
    [undefined] for all of them. *)
Definition prop (v : JSValue) (k : string) : JSValue :=
  match v with
  | JObj props => default JUndefined (assoc (js k) props)
  | _ => JUndefined
  end.

(** [v.k] in general: reading a property of [undefined] or [null] throws. *)
Definition member (v : JSValue) (k : string) : Exn + JSValue :=
  match v with
  | JUndefined | JNull => inl TypeError
  | _ => inr (prop v k)
  end.

(** [v[0]] *)
Definition index0 (v : JSValue) : Exn + JSValue :=
  match v with
  | JUndefined | JNull => inl TypeError
  | JArr xs => inr (default JUndefined (head xs))
  | JStr s => inr (match s with [] => JUndefined | c :: _ => JStr [c] end)
  | JObj props => inr (default JUndefined (assoc (js "0") props))
  | _ => inr JUndefined
  end.

(** [a === b]. Arrays and objects compare by identity; the program compares
    a request field with a string of the secret store only, and no value of a
    request body is identical to an object of the server. *)
Definition strict_equals (a b : JSValue) : bool :=
  match a, b with
  | JUndefined, JUndefined | JNull, JNull => true
  | JBool x, JBool y => bool_decide (x = y)
  | JNum x, JNum y => PrimFloat.eqb x y
  | JStr x, JStr y => bool_decide (x = y)
  | _, _ => false
  end.

(** String iteration is by code point: a high surrogate followed by a low
    one forms a single element. *)
Definition is_high_surrogate (c : codeunit) : bool := (55296 <=? c) && (c <=? 56319).
Definition is_low_surrogate (c : codeunit) : bool := (56320 <=? c) && (c <=? 57343).

Fixpoint code_points (s : jsstring) : list jsstring :=
  match s with
  | [] => []
  | c :: t =>
      match t with
      | d :: r =>
          if is_high_surrogate c && is_low_surrogate d
          then [c; d] :: code_points r
          else [c] :: code_points t
      | [] => [[c]]
      end
  end.

(** The elements that [for (const x of v)] visits; a value that is not
    iterable throws. *)
Definition iterate (v : JSValue) : Exn + list JSValue :=
  match v with
  | JArr xs => inr xs
  | JStr s => inr (JStr <$> code_points s)
  | _ => inl TypeError
  end.

(** [String(v)], the conversion of template literals, of [+] with a string
    operand and of the arguments of library functions that expect a
    string. [decimal] is the decimal printing of a double ([Number::toString]),
    taken as given. An object converts through its [toString]: a parsed
    JSON object that has an own [toString] property holds a value there that
    cannot be called, and since its inherited [valueOf] returns the object
    itself the conversion throws a TypeError; without one it inherits
    [Object.prototype.toString]. An array joins the conversions of its
    elements, the empty string standing for [undefined] and [null]. *)
Fixpoint ToString (decimal : float -> jsstring) (v : JSValue) : Exn + jsstring :=
  match v with
  | JUndefined => inr (js "undefined")
  | JNull => inr (js "null")
  | JBool b => inr (if b then js "true" else js "false")
  | JNum x => inr (decimal x)
  | JStr s => inr s
  | JArr xs =>
      (fix join (l : list JSValue) : Exn + jsstring :=
         match l with
         | [] => inr []
         | x :: r =>
             match match x with
                   | JUndefined | JNull => inr []
                   | _ => ToString decimal x
                   end with
             | inl e => inl e
             | inr s =>
                 match r with
                 | [] => inr s
                 | _ =>
                     match join r with
                     | inl e => inl e
                     | inr t => inr (s ++ js "," ++ t)
                     end
                 end
             end
         end) xs
  | JObj props =>
      match assoc (js "toString") props with
      | Some _ => inl TypeError
      | None => inr (js "[object Object]")
      end
  end.

(** ** Effects and the world *)

(** The response object of the HTTP client. *)
Record AxiosResponse := { status : Z; data : JSValue }.

(** Everything the server does to its surroundings, in the order and with
    the arguments of the source. *)
Inductive Effect :=
| TmpDirSync                                   (* tmp.dirSync({ unsafeCleanup: true }) *)
| FsEnsureDir (dir : JSValue)                  (* fs.ensureDir(dir) *)
| DataUriParse (url : JSValue)                 (* parser.parse(url) *)
| FsWriteFile (path content : JSValue) (encoding : option jsstring)
| ChatCompletionsCreate (prompt : jsstring)    (* openai.chat.completions.create({...}) *)
| ReposCreateForAuthenticatedUser (name : jsstring)
| RequirePath                                  (* require('path'); a ReferenceError where [require] is unbound *)
| SimpleGit (dir : JSValue)                    (* simpleGit(dir) *)
| GitInit
| GitAddConfig (key value : jsstring)
| GitAdd (pattern : jsstring)
| GitCommit (message : jsstring)
| GitAddRemote (name : jsstring) (url : JSValue)
| GitPush (args : list jsstring)
| ReposGetCommit (owner repo : JSValue) (ref : jsstring)
| AxiosPost (url body : JSValue)               (* axios.post(url, body, { headers, timeout: 10000 }) *)
| SetTimeout (ms : float)                      (* await new Promise(r => setTimeout(r, ms)): the delay asked for *)
| ConsoleLog (msg : jsstring) (arg : JSValue)
| ConsoleError (msg : jsstring) (err : Exn)
| Respond (code : Z) (body : JSValue).         (* res.status(code).json(body) *)

(** The surroundings: how a library call is answered (a value or a thrown
    exception), how the callback target answers a POST, and what the clock
    reads, each as a function of the effects performed so far. *)
Record World := {
  reply : list Effect -> Effect -> Exn + JSValue;
  http : list Effect -> JSValue -> JSValue -> Exn + AxiosResponse;
  clock : list Effect -> Z
}.

(** A computation reads the history of effects so far and yields the effects
    it adds, in order, with its result or the exception it throws. *)
Definition M (A : Type) : Type := list Effect -> list Effect * (Exn + A).

Definition ret {A} (a : A) : M A := fun _ => ([], inr a).

Definition throw {A} (e : Exn) : M A := fun _ => ([], inl e).

Definition bind {A B} (m : M A) (k : A -> M B) : M B :=
  fun h =>
    match m h with
    | (o1, inl e) => (o1, inl e)
    | (o1, inr a) =>
        match k a (h ++ o1) with
        | (o2, r) => (o1 ++ o2, r)
        end
    end.

(** [try { m } catch (e) { handler e }] *)
Definition try_catch {A} (m : M A) (handler : Exn -> M A) : M A :=
  fun h =>
    match m h with
    | (o1, inl e) =>
        match handler e (h ++ o1) with
        | (o2, r) => (o1 ++ o2, r)
        end
    | (o1, inr a) => (o1, inr a)
    end.

(** A pure step that may throw. *)
Definition lift {A} (r : Exn + A) : M A := fun _ => ([], r).

(** An effect that cannot fail (console, timer, sending the response). *)
Definition emit (e : Effect) : M unit := fun _ => ([e], inr tt).

Declare Scope js_scope.
Delimit Scope js_scope with js_m.
Notation "x <- m ;; k" := (bind m (fun x => k))
  (at level 100, m at next level, right associativity) : js_scope.
Notation "m ;;; k" := (bind m (fun _ => k))
  (at level 100, right associativity) : js_scope.
Local Open Scope js_scope.

(** The effects of a run, and the predicate "every effect of every run
    satisfies [P]". *)
Definition emits {A} (P : Effect -> Prop) (m : M A) : Prop :=
  forall h, Forall P (m h).1.

(** ** Configuration *)

(** [process.env]: a variable is a string or absent. *)
Record Env := {
  env_GITHUB_TOKEN : option jsstring;
  env_OPENAI_API_KEY : option jsstring;
  env_DEFAULT_SECRET : option jsstring;
  env_GIT_USER_NAME : option jsstring;
  env_GIT_USER_EMAIL : option jsstring
}.

(** [process.env.X || fallback] *)
Definition env_or (x : option jsstring) (fallback : string) : jsstring :=
  match x with
  | Some (c :: s) => c :: s
  | _ => js fallback
  end.

(** The tree holds two revisions of the server: [server.js], and a second
    copy ([part_000]) that joins paths with the imported [path] module
    instead of a template string and [require], iterates the attachments
    without the [|| []] guard, and drops one line break of the mock page.
    Everything else is the same text. *)
Inductive Revision := server_js | part_000.

(** [function shortName(task)] *)
Definition shortName (task : JSValue) : Exn + jsstring :=
  match js_or task (JStr (js "task")) with
  | JStr s => inr (slice_to 40 (toLowerCase (replace_outside_class s)))
  | _ => inl TypeError   (* no [replace] method on the other values *)
  end.

(** [Date.now().toString(36).slice(-6)] at clock reading [t]. *)
Definition timestamp_fragment (t : Z) : jsstring :=
  slice_last 6 (Number_toString 36 t).

(** What one delivery attempt hands back to [notifyEvaluationUrl]:
    [resp.data] when the request resolved with
    [resp.status >= 200 && resp.status < 300], nothing when it was rejected
    or resolved with another status. *)
Definition delivered (r : Exn + AxiosResponse) : option JSValue :=
  match r with
  | inr resp =>
      if (200 <=? status resp)%Z && (status resp <? 300)%Z
      then Some (data resp) else None
  | inl _ => None
  end.

(** [resp.choices[0].message.content] *)
Definition response_text (resp : JSValue) : Exn + JSValue :=
  match member resp "choices" with
  | inl e => inl e
  | inr choices =>
      match index0 choices with
      | inl e => inl e
      | inr choice =>
          match member choice "message" with
          | inl e => inl e
          | inr message => member message "content"
          end
      end
  end.

(** The [maxRetries = 5] default of [notifyEvaluationUrl]. *)
Definition default_maxRetries : nat := 5.

Section Server.

Variable rev : Revision.
Variable env : Env.
Variable w : World.

(** Pure library functions, taken as given: the decimal printing of a
    number, [JSON.parse] on a string ([None] when it throws a SyntaxError),
    [JSON.stringify], [path.join], [path.dirname]. *)
Variable decimal : float -> jsstring.
Variable JSON_parse : jsstring -> option JSValue.
Variable JSON_stringify : JSValue -> jsstring.
Variable path_join : jsstring -> jsstring -> jsstring.
Variable path_dirname : jsstring -> jsstring.

(** A library call: recorded, and answered by the world. *)
Definition call (e : Effect) : M JSValue := fun h => ([e], reply w h e).

(** [Date.now()] *)
Definition Date_now : M Z := fun h => ([], inr (clock w h)).

(** *** Config *)

Definition DEFAULT_SECRET : jsstring := env_or (env_DEFAULT_SECRET env) "demo-secret".
Definition GIT_USER_NAME : jsstring := env_or (env_GIT_USER_NAME env) "Auto Builder".
Definition GIT_USER_EMAIL : jsstring := env_or (env_GIT_USER_EMAIL env) "autobuilder@example.com".

(** [openai = OPENAI_API_KEY ? new OpenAI(...) : null], as "is it set". *)
Definition openai : bool :=
  match env_OPENAI_API_KEY env with
  | Some (_ :: _) => true
  | _ => false
  end.

(** *** The secret store *)

(** [studentSecrets = new Map(); studentSecrets.set('student@example.com', DEFAULT_SECRET)] *)
Definition studentSecrets : gmap (list N) (list N) :=
  <[ js "student@example.com" := DEFAULT_SECRET ]> ∅.

(** [map.get(k)]: the keys of the store are strings. *)
Definition Map_get (m : gmap (list N) (list N)) (k : JSValue) : JSValue :=
  match k with
  | JStr s => match m !! s with Some v => JStr v | None => JUndefined end
  | _ => JUndefined
  end.

Definition verifySecret (email secret : JSValue) : bool :=
  let expected := js_or (Map_get studentSecrets email) (JStr DEFAULT_SECRET) in
  strict_equals secret expected.

(** *** Attachment Materializer *)

(** [`${dir}/${name}`] in [server.js], which throws where a conversion
    does; [path.join(dir, name)] in the other revision, which rejects an
    argument that is not a string. *)
Definition file_path (dir name : JSValue) : Exn + jsstring :=
  match rev with
  | server_js =>
      match ToString decimal dir with
      | inl e => inl e
      | inr d =>
          match ToString decimal name with
          | inl e => inl e
          | inr n => inr (d ++ js "/" ++ n)
          end
      end
  | part_000 =>
      match dir, name with
      | JStr d, JStr n => inr (path_join d n)
      | _, _ => inl TypeError
      end
  end.

(** The body of [for (const att of ...)], with [written] so far. *)
Fixpoint writeAttachments_loop (atts : list JSValue) (targetDir : JSValue)
    (written : list JSValue) : M JSValue :=
  match atts with
  | [] => ret (JArr written)
  | att :: rest =>
      name <- lift (member att "name");;
      let url := prop att "url" in
      if negb (truthy name) || negb (truthy url)
      then writeAttachments_loop rest targetDir written
      else
        parsed <- call (DataUriParse url);;
        filePath <- lift (file_path targetDir name);;
        content <- lift (member parsed "content");;
        _ <- call (FsWriteFile (JStr filePath) content None);;
        writeAttachments_loop rest targetDir (written ++ [JStr filePath])
  end.

Definition writeAttachments (attachments targetDir : JSValue) : M JSValue :=
  let attachments := match attachments with JUndefined => JArr [] | v => v end in
  _ <- call (FsEnsureDir targetDir);;
  atts <- lift (iterate match rev with
                        | server_js => js_or attachments (JArr [])
                        | part_000 => attachments
                        end);;
  writeAttachments_loop atts targetDir [].

(** *** Artifact Generator *)

(** The mock page and readme, with [brief] the text that [`${brief}`]
    yields. *)
Definition mock_page (brief : jsstring) : jsstring :=
  js "<!doctype html>" ++ match rev with server_js => nl | part_000 => [] end
  ++ js "<html><head><meta charset=" ++ dq ++ js "utf-8" ++ dq
  ++ js "><title>Auto App</title></head><body><h1>Auto-generated app</h1><p>"
  ++ brief
  ++ js "</p><div id=" ++ dq ++ js "output" ++ dq
  ++ js "></div><script>document.getElementById('output').textContent = 'Generated at ' + new Date().toISOString();</script></body></html>".

Definition mock_readme (brief : jsstring) : jsstring :=
  js "# Auto-generated app" ++ nl ++ nl ++ js "Brief: " ++ brief.

(** The artifact set returned when no backend is configured. *)
Definition mock_artifacts (brief : jsstring) : JSValue :=
  JObj [(js "files",
         JArr [JObj [(js "path", JStr (js "index.html"));
                     (js "content", JStr (mock_page brief))]]);
        (js "readme", JStr (mock_readme brief))].

Definition parse_failed_readme : jsstring :=
  js "# Auto app" ++ nl ++ nl ++ js "(LLM output parse failed)".

(** The artifact set returned from the [catch] around [JSON.parse]. *)
Definition parse_failed_artifacts : JSValue :=
  JObj [(js "files",
         JArr [JObj [(js "path", JStr (js "index.html"));
                     (js "content", JStr (js "<!doctype html><html><body><h1>Generated app</h1><p>Failed to parse LLM output. See server logs.</p></body></html>"))]]);
        (js "readme", JStr parse_failed_readme)].

(** The prompt, [`... Brief:\n\n${brief}\n\nAttachments: ${JSON.stringify(attachments || [])}`],
    with [text] what [`${brief}`] yields. *)
Definition prompt_of (text : jsstring) (attachments : JSValue) : jsstring :=
  js "You are an assistant that returns a minimal static web app for the following brief. Reply ONLY with a JSON object: { files: [{ path, content }], readme } where content contains the exact file contents. Brief:"
  ++ nl ++ nl ++ text ++ nl ++ nl ++ js "Attachments: "
  ++ JSON_stringify (js_or attachments (JArr [])).

Definition prompt (brief attachments : JSValue) : Exn + jsstring :=
  match ToString decimal brief with
  | inl e => inl e
  | inr text => inr (prompt_of text attachments)
  end.

(** [JSON.parse(v)]: the argument is converted to a string first; [None]
    when the conversion or the parse throws. *)
Definition JSON_parse_value (v : JSValue) : option JSValue :=
  match ToString decimal v with
  | inl _ => None
  | inr s => JSON_parse s
  end.

(** [try { return JSON.parse(text) } catch (e) { return fallback }] *)
Definition parse_or_fallback (text : JSValue) : JSValue :=
  match JSON_parse_value text with
  | Some parsed => parsed
  | None => parse_failed_artifacts
  end.

Definition generateFilesWithLLM (brief attachments : JSValue) : M JSValue :=
  if negb openai then
    text <- lift (ToString decimal brief);;
    ret (mock_artifacts text)
  else
    p <- lift (prompt brief attachments);;
    (* model 'gpt-4o-mini', one user message, max_tokens 1500 *)
    resp <- call (ChatCompletionsCreate p);;
    text <- lift (response_text resp);;
    ret (parse_or_fallback text).

(** *** Repository Publisher *)

(** The body of [for (const f of files)]. *)
Fixpoint write_files (files : list JSValue) (tmpDir : JSValue) : M unit :=
  match files with
  | [] => ret tt
  | f :: rest =>
      p <- lift (member f "path");;
      filePath <- lift (file_path tmpDir p);;
      _ <- match rev with
           | server_js => call RequirePath
           | part_000 => ret JUndefined
           end;;
      _ <- call (FsEnsureDir (JStr (path_dirname filePath)));;
      _ <- call (FsWriteFile (JStr filePath) (prop f "content") (Some (js "utf8")));;
      write_files rest tmpDir
  end.

Definition createGithubRepoAndPush (owner : JSValue) (repoName : jsstring)
    (files readme : JSValue) : M JSValue :=
  (* private: false, description, license_template: 'mit' *)
  resp <- call (ReposCreateForAuthenticatedUser repoName);;
  repo <- lift (member resp "data");;
  d <- call TmpDirSync;;
  tmpDir <- lift (member d "name");;
  _ <- call (FsEnsureDir tmpDir);;
  fs <- lift (iterate files);;
  write_files fs tmpDir;;;
  readmePath <- lift (file_path tmpDir (JStr (js "README.md")));;
  _ <- call (FsWriteFile (JStr readmePath) (js_or readme (JStr (js "# Auto-generated"))) None);;
  licensePath <- lift (file_path tmpDir (JStr (js "LICENSE")));;
  _ <- call (FsWriteFile (JStr licensePath) (JStr (js "MIT")) None);;
  _ <- call (SimpleGit tmpDir);;
  _ <- call GitInit;;
  _ <- call (GitAddConfig (js "user.name") GIT_USER_NAME);;
  _ <- call (GitAddConfig (js "user.email") GIT_USER_EMAIL);;
  _ <- call (GitAdd (js "./*"));;
  _ <- call (GitCommit (js "Initial auto-generated commit"));;
  clone_url <- lift (member repo "clone_url");;
  _ <- call (GitAddRemote (js "origin") clone_url);;
  _ <- call (GitPush [js "-u"; js "origin"; js "main"]);;
  login <- lift (member (prop repo "owner") "login");;
  commit <- call (ReposGetCommit login (prop repo "name") (js "heads/main"));;
  commitData <- lift (member commit "data");;
  commitSha <- lift (member commitData "sha");;
  ret (JObj [(js "repo_url", prop repo "html_url"); (js "commit_sha", commitSha)]).

(** *** Callback Notifier *)

(** One pass through the [try] block: the POST, and [Some resp.data] when
    the function returns from inside it. A rejected request and a status
    outside 200..299 both fall through to the wait. *)
Definition post_attempt (evaluation_url body : JSValue) : M (option JSValue) :=
  fun h =>
    ([AxiosPost evaluation_url body],
     inr (delivered (http w h evaluation_url body))).

(** The [for] loop with [remaining = maxRetries - i] iterations to go. *)
Fixpoint notify_loop (evaluation_url body : JSValue) (remaining : nat)
    (delay : float) : M JSValue :=
  match remaining with
  | O => throw (Error (js "Failed to notify evaluation_url after retries"))
  | S n =>
      r <- post_attempt evaluation_url body;;
      match r with
      | Some d => ret d
      | None =>
          _ <- emit (SetTimeout delay);;
          notify_loop evaluation_url body n (delay * 2)%float
      end
  end.

Definition notifyEvaluationUrl (evaluation_url body : JSValue)
    (maxRetries : nat) : M JSValue :=
  notify_loop evaluation_url body maxRetries 1000%float.

(** *** Job Orchestrator: the [try] block of the handler *)

(** [tmp.dirSync(...).name] and [writeAttachments(attachments || [], tmpDir)] *)
Definition materialize (attachments : JSValue) : M unit :=
  d <- call TmpDirSync;;
  tmpDir <- lift (member d "name");;
  _ <- writeAttachments (js_or attachments (JArr [])) tmpDir;;
  ret tt.

(** [generated.readme || ('# Auto-generated app\n\n' + (brief || ''))]: the
    right operand is evaluated, and the brief converted, only when the
    readme is falsy. *)
Definition readme_or_default (generated brief : JSValue) : Exn + JSValue :=
  if truthy (prop generated "readme") then inr (prop generated "readme")
  else
    match ToString decimal (js_or brief (JStr [])) with
    | inl e => inl e
    | inr text => inr (JStr (js "# Auto-generated app" ++ nl ++ nl ++ text))
    end.

(** [generated], [files] and [readme] *)
Definition generate (brief attachments : JSValue) : M (JSValue * JSValue) :=
  generated <- generateFilesWithLLM (js_or brief (JStr (js "Auto app")))
                 (js_or attachments (JArr []));;
  files <- lift (member generated "files");;
  readme <- lift (readme_or_default generated brief);;
  ret (js_or files (JArr []), readme).

(** [`${shortName(task)}-${Date.now().toString(36).slice(-6)}`] *)
Definition repoName (task : JSValue) : M jsstring :=
  slug <- lift (shortName task);;
  t <- Date_now;;
  ret (slug ++ js "-" ++ timestamp_fragment t).

Definition notifyBody (email task round nonce result : JSValue) : JSValue :=
  JObj [(js "email", email); (js "task", task); (js "round", round);
        (js "nonce", nonce); (js "repo_url", prop result "repo_url");
        (js "commit_sha", prop result "commit_sha"); (js "deploy_url", JNull)].

Definition publish_and_notify (email task round nonce evaluation_url : JSValue)
    (name : jsstring) (artifacts : JSValue * JSValue) : M unit :=
  result <- createGithubRepoAndPush JNull name artifacts.1 artifacts.2;;
  _ <- notifyEvaluationUrl evaluation_url
         (notifyBody email task round nonce result) default_maxRetries;;
  emit (ConsoleLog (js "Notified evaluation_url for") task).

Definition job (email task round nonce brief evaluation_url attachments : JSValue)
    : M unit :=
  materialize attachments;;;
  artifacts <- generate brief attachments;;
  name <- repoName task;;
  publish_and_notify email task round nonce evaluation_url name artifacts.

(** The [try { ... } catch (err) { console.error(...) }] statement. *)
Definition process (email task round nonce brief evaluation_url attachments : JSValue)
    : M unit :=
  try_catch
    (job email task round nonce brief evaluation_url attachments)
    (fun err => emit (ConsoleError (js "Processing failed:") err)).

(** *** [app.post('/api-endpoint', ...)] *)

Definition missing_fields_response : Effect :=
  Respond 400 (JObj [(js "error", JStr (js "missing required fields"))]).
Definition invalid_secret_response : Effect :=
  Respond 401 (JObj [(js "error", JStr (js "invalid secret"))]).
Definition accepted_response : Effect :=
  Respond 200 (JObj [(js "status", JStr (js "accepted"))]).

Definition api_endpoint (req_body : JSValue) : M unit :=
  let payload := js_or req_body (JObj []) in
  let email := prop payload "email" in
  let secret := prop payload "secret" in
  let task := prop payload "task" in
  let round := prop payload "round" in
  let nonce := prop payload "nonce" in
  let brief := prop payload "brief" in
  let evaluation_url := prop payload "evaluation_url" in
  let attachments := prop payload "attachments" in
  if negb (truthy email) || negb (truthy task) || negb (truthy round)
     || negb (truthy nonce) || negb (truthy evaluation_url)
  then emit missing_fields_response
  else if negb (verifySecret email secret)
  then emit invalid_secret_response
  else
    emit accepted_response;;;
    process email task round nonce brief evaluation_url attachments.

End Server.

(** ** Reading a trace *)

(** The effects of the pipeline proper: everything but the HTTP response and
    the console. *)
Definition pipeline_effect (e : Effect) : bool :=
  match e with
  | Respond _ _ | ConsoleLog _ _ | ConsoleError _ _ => false
  | _ => true
  end.

Definition is_post (e : Effect) : bool :=
  match e with AxiosPost _ _ => true | _ => false end.

(** Effects of the Repository Publisher that reach the repository host. *)
Definition is_publish (e : Effect) : bool :=
  match e with
  | ReposCreateForAuthenticatedUser _ | GitPush _ | ReposGetCommit _ _ _ => true
  | _ => false
  end.

Definition is_generation (e : Effect) : bool :=
  match e with ChatCompletionsCreate _ => true | _ => false end.

(** The effects each component can have. *)
Definition materializer_effect (e : Effect) : bool :=
  match e with
  | TmpDirSync | FsEnsureDir _ | DataUriParse _ | FsWriteFile _ _ _ => true
  | _ => false
  end.

Definition publisher_effect (e : Effect) : bool :=
  match e with
  | ReposCreateForAuthenticatedUser _ | TmpDirSync | FsEnsureDir _ | RequirePath
  | FsWriteFile _ _ _ | SimpleGit _ | GitInit | GitAddConfig _ _ | GitAdd _
  | GitCommit _ | GitAddRemote _ _ | GitPush _ | ReposGetCommit _ _ _ => true
  | _ => false
  end.

(** An effect that belongs to generation, to publishing at the repository
    host, or to notification. *)
Definition downstream_effect (e : Effect) : bool :=
  is_generation e || is_publish e || is_post e.

(** Number of delivery attempts in a trace. *)
Definition attempts (tr : list Effect) : nat := length (filter is_post tr).

(** The waits of a trace, in order. *)
Fixpoint waits (tr : list Effect) : list float :=
  match tr with
  | [] => []
  | SetTimeout ms :: r => ms :: waits r
  | _ :: r => waits r
  end.

(** The trace up to and including its last delivery attempt. *)
Fixpoint upto_last_post (tr : list Effect) : list Effect :=
  match tr with
  | [] => []
  | e :: r =>
      match upto_last_post r with
      | [] => if is_post e then [e] else []
      | r' => e :: r'
      end
  end.

(** The waits that separate consecutive delivery attempts. *)
Definition delays_between_attempts (tr : list Effect) : list float :=
  waits (upto_last_post tr).

(** The fields a request must carry. *)
Definition required_fields : list string :=
  ["email"; "task"; "round"; "nonce"; "evaluation_url"]%string.

(** The field [k] of a request body, when the body is an object that has
    one. *)
Definition field (body : JSValue) (k : string) : option JSValue :=
  match body with
  | JObj props => assoc (js k) props
  | _ => None
  end.

(** Every required field is present in the body, with a truthy value. *)
Definition has_required_fields (body : JSValue) : bool :=
  forallb (fun k => match field body k with
                    | Some v => truthy v
                    | None => false
                    end) required_fields.

(** The secret a request must present, in the words of the specification:
    the stored secret for a known email, the fallback default secret for an
    email the store does not know. *)
Definition expected_secret (env : Env) (email : JSValue) : jsstring :=
  match email with
  | JStr e =>
      match studentSecrets env !! e with
      | Some stored => stored
      | None => DEFAULT_SECRET env
      end
  | _ => DEFAULT_SECRET env
  end.

(** The slug of a task name, in the words of the specification: every
    character outside [a-z0-9-], compared without regard to case, becomes a
    hyphen, the rest is lowercased, and the result is cut to at most 40
    characters. *)
Definition spec_slug_char (c : codeunit) : codeunit :=
  if is_slug_char c then c
  else if (65 <=? c) && (c <=? 90) then c + 32
  else hyphen.

Definition spec_slug (task : jsstring) : jsstring :=
  take 40 (spec_slug_char <$> task).

(** ** Further readings of values and traces *)

(** The value of a base-36 digit character, and of a digit string read
    most significant digit first. *)
Definition digit_value (c : codeunit) : N :=
  if c <? 58 then c - 48 else c - 87.

Definition base36_value (s : jsstring) : N :=
  fold_left (fun acc c => acc * 36 + digit_value c) s 0.

(** A delivery attempt fails, in the words of the specification: a
    transport error, or a response whose status is not 2xx. It succeeds
    with [resp] when the request resolves with a 2xx response [resp]. *)
Definition attempt_fails (r : Exn + AxiosResponse) : Prop :=
  match r with
  | inl _ => True
  | inr resp => ~ (200 <= status resp < 300)%Z
  end.

Definition attempt_succeeds (r : Exn + AxiosResponse) (resp : AxiosResponse) : Prop :=
  r = inr resp /\ (200 <= status resp < 300)%Z.

(** The trace of [k] failed attempts in a row, the first followed by a wait
    of [delay] ms and each later one by twice the wait before it. *)
Fixpoint failed_attempts (url body : JSValue) (k : nat) (delay : float)
    : list Effect :=
  match k with
  | O => []
  | S n =>
      AxiosPost url body :: SetTimeout delay
        :: failed_attempts url body n (delay * 2)%float
  end.

(** The double that holds a whole number of milliseconds below 2^63. *)
Definition float_of_Z (z : Z) : float := PrimFloat.of_uint63 (Uint63.of_Z z).

(** 1000, 2000, 4000, ...: [k] waits that double from one second. *)
Definition backoff (k : nat) : list Z :=
  (fun i => 1000 * 2 ^ Z.of_nat i)%Z <$> seq 0 k.

(** The longest wait a timer honours: above [2^31 - 1] ms the runtime
    sets the timer to 1 ms instead. *)
Definition TIMEOUT_MAX : Z := 2 ^ 31 - 1.

Definition is_respond (e : Effect) : bool :=
  match e with Respond _ _ => true | _ => false end.

Definition is_console (e : Effect) : bool :=
  match e with ConsoleLog _ _ | ConsoleError _ _ => true | _ => false end.

Definition is_write (e : Effect) : bool :=
  match e with FsWriteFile _ _ _ => true | _ => false end.

(** An attachment that [writeAttachments] does not skip: both [name] and
    [url] are truthy. *)
Definition complete_attachment (att : JSValue) : bool :=
  truthy (prop att "name") && truthy (prop att "url").

(** The paths of the files a trace writes, in order. *)
Definition written_paths (tr : list Effect) : list JSValue :=
  omap (fun e => match e with
                 | FsWriteFile path _ _ => Some path
                 | _ => None
                 end) tr.

(** Where [writeAttachments] puts an attachment: the path it computes from
    the target directory and the attachment's name. *)
Definition attachment_target (rev : Revision) (decimal : float -> jsstring)
    (path_join : jsstring -> jsstring -> jsstring)
    (targetDir att : JSValue) : JSValue :=
  match file_path rev decimal path_join targetDir (prop att "name") with
  | inr p => JStr p
  | inl _ => JUndefined
  end.


(** Effects of git and of the repository host. *)
Definition is_git (e : Effect) : bool :=
  match e with
  | SimpleGit _ | GitInit | GitAddConfig _ _ | GitAdd _ | GitCommit _
  | GitAddRemote _ _ | GitPush _ => true
  | _ => false
  end.

(** "Every run of [m] throws, and every effect of every run satisfies
    [P]". *)
Definition throws_within {A} (P : Effect -> Prop) (m : M A) : Prop :=
  forall h, (exists e, (m h).2 = inl e) /\ Forall P (m h).1.

(** "Every run of [m] that returns ends with the console line [line],
    after one to five delivery attempts; every run that throws has made at
    most five; no run writes to the console otherwise". *)
Definition logs_at_end (line : Effect) (m : M unit) : Prop :=
  forall h,
    match (m h).2 with
    | inr _ =>
        exists body,
          (m h).1 = body ++ [line]
          /\ Forall (fun e => is_console e = false) body
          /\ (1 <= attempts body <= default_maxRetries)%nat
    | inl _ =>
        Forall (fun e => is_console e = false) (m h).1
        /\ (attempts (m h).1 <= default_maxRetries)%nat
    end.

(** The status code of the response a trace starts with. *)
Definition response_code (tr : list Effect) : option Z :=
  match tr with
  | Respond code _ :: _ => Some code
  | _ => None
  end.

(** ** Sample surroundings

    Concrete requests, configurations and worlds on which the statements
    below are exercised. *)

Module Sample.

Definition env_offline : Env :=
  {| env_GITHUB_TOKEN := Some (js "ghp_token"); env_OPENAI_API_KEY := None;
     env_DEFAULT_SECRET := None; env_GIT_USER_NAME := None;
     env_GIT_USER_EMAIL := None |}.

Definition env_backend : Env :=
  {| env_GITHUB_TOKEN := Some (js "ghp_token");
     env_OPENAI_API_KEY := Some (js "sk-test");
     env_DEFAULT_SECRET := None; env_GIT_USER_NAME := None;
     env_GIT_USER_EMAIL := None |}.

(** Stand-ins for the pure library functions: the printing of a whole
    number (the samples hold no other number), a parser that rejects every
    text, the serialisation of an empty attachment list, path concatenation
    and the part of a path before its last slash. *)
Definition decimal (x : float) : jsstring :=
  match Prim2SF x with
  | S754_zero _ => js "0"
  | S754_infinity s => (if s then [hyphen] else []) ++ js "Infinity"
  | S754_nan => js "NaN"
  | S754_finite s m e =>
      (if s then [hyphen] else []) ++ Number_toString 10 (Z.shiftl (Z.pos m) e)
  end.

Definition reject_all (text : jsstring) : option JSValue := None.
Definition stringify_empty (v : JSValue) : jsstring := js "[]".
Definition join (a b : jsstring) : jsstring := a ++ js "/" ++ b.

Fixpoint before_last_slash (p : jsstring) : option jsstring :=
  match p with
  | [] => None
  | c :: r =>
      match before_last_slash r with
      | Some d => Some (c :: d)
      | None => if c =? 47 then Some [] else None
      end
  end.

Definition dirname (p : jsstring) : jsstring :=
  default (js ".") (before_last_slash p).

(** The end-to-end request of the specification, and variations of it. *)
Definition fields (secret : string) (round nonce : JSValue)
    : list (jsstring * JSValue) :=
  [(js "email", JStr (js "student@example.com"));
   (js "secret", JStr (js secret));
   (js "task", JStr (js "My Task")); (js "round", round); (js "nonce", nonce);
   (js "brief", JStr (js "todo app"));
   (js "evaluation_url", JStr (js "http://test/cb"))].

Definition request : JSValue :=
  JObj (fields "demo-secret" (JNum 1%float) (JStr (js "n1"))).

Definition request_round_zero : JSValue :=
  JObj (fields "demo-secret" (JNum 0%float) (JStr (js "n1"))).

Definition request_round_zero_guess : JSValue :=
  JObj (fields "guess" (JNum 0%float) (JStr (js "n1"))).

Definition request_without_nonce : JSValue :=
  JObj [(js "email", JStr (js "student@example.com"));
        (js "secret", JStr (js "demo-secret"));
        (js "task", JStr (js "My Task")); (js "round", JNum 1%float);
        (js "evaluation_url", JStr (js "http://test/cb"))].

Definition request_wrong_secret : JSValue :=
  JObj (fields "guess" (JNum 1%float) (JStr (js "n1"))).

Definition attachment : JSValue :=
  JObj [(js "name", JStr (js "logo.png"));
        (js "url", JStr (js "data:image/png;base64,AAAA"))].

Definition request_with_attachment : JSValue :=
  JObj (fields "demo-secret" (JNum 1%float) (JStr (js "n1"))
          ++ [(js "attachments", JArr [attachment])]).

(** A repository host, file system and git that accept everything, in a
    module system (ES modules) that binds no [require]. *)
Definition library_ok (e : Effect) : Exn + JSValue :=
  match e with
  | RequirePath => inl ReferenceError
  | TmpDirSync => inr (JObj [(js "name", JStr (js "/tmp/job"))])
  | DataUriParse _ => inr (JObj [(js "content", JStr (js "bytes"))])
  | ReposCreateForAuthenticatedUser name =>
      inr (JObj [(js "data",
                  JObj [(js "name", JStr name);
                        (js "html_url", JStr (js "https://host/u/" ++ name));
                        (js "clone_url", JStr (js "https://host/u/" ++ name ++ js ".git"));
                        (js "owner", JObj [(js "login", JStr (js "u"))])])])
  | ReposGetCommit _ _ _ =>
      inr (JObj [(js "data", JObj [(js "sha", JStr (js "abc123"))])])
  | ChatCompletionsCreate _ =>
      inr (JObj [(js "choices",
                  JArr [JObj [(js "message",
                               JObj [(js "content", JStr (js "Sure! Here is your app"))])]])])
  | _ => inr JUndefined
  end.

Definition ok_response : AxiosResponse := {| status := 200; data := JNull |}.

Definition time : Z := 1700000000000.

Definition world_ok : World :=
  {| reply := fun _ e => library_ok e;
     http := fun _ _ _ => inr ok_response;
     clock := fun _ => time |}.

(** The callback target answers 500 to every attempt. *)
Definition world_unreachable : World :=
  {| reply := fun _ e => library_ok e;
     http := fun _ _ _ => inr {| status := 500; data := JNull |};
     clock := fun _ => time |}.

(** A callback target that is down for the first five attempts, the
    connection refused at one attempt and a 500 answered at the next, and
    up from the sixth. *)
Definition refused : Exn := Thrown (JStr (js "ECONNREFUSED")).

Definition down_five_times (h : list Effect) : Exn + AxiosResponse :=
  match attempts h with
  | 0 | 2 | 4 => inl refused
  | 1 | 3 => inr {| status := 500; data := JNull |}
  | _ => inr ok_response
  end%nat.

Definition world_down_five_times : World :=
  {| reply := fun _ e => library_ok e;
     http := fun h _ _ => down_five_times h;
     clock := fun _ => time |}.

(** A callback target that refuses the first attempt, answers 503 to the
    second and acknowledges the third. *)
Definition receipt : JSValue := JObj [(js "ok", JBool true)].

Definition flaky (h : list Effect) : Exn + AxiosResponse :=
  match attempts h with
  | 0 => inl refused
  | 1 => inr {| status := 503; data := JNull |}
  | _ => inr {| status := 201; data := receipt |}
  end%nat.

Definition world_flaky : World :=
  {| reply := fun _ e => library_ok e;
     http := fun h _ _ => flaky h;
     clock := fun _ => time |}.

(** The generation backend is down. *)
Definition backend_down : Exn := Thrown (JStr (js "503 Service Unavailable")).

Definition world_backend_down : World :=
  {| reply := fun _ e =>
       match e with
       | ChatCompletionsCreate _ => inl backend_down
       | _ => library_ok e
       end;
     http := fun _ _ _ => inr ok_response;
     clock := fun _ => time |}.

(** The data-URI parser rejects its input. *)
Definition bad_data_uri : Exn := Thrown (JStr (js "invalid data URI")).

Definition world_bad_attachment : World :=
  {| reply := fun _ e =>
       match e with
       | DataUriParse _ => inl bad_data_uri
       | _ => library_ok e
       end;
     http := fun _ _ _ => inr ok_response;
     clock := fun _ => time |}.

(** The repository host refuses to create the repository. *)
Definition name_taken : Exn := Thrown (JStr (js "name already exists on this account")).

Definition world_name_taken : World :=
  {| reply := fun _ e =>
       match e with
       | ReposCreateForAuthenticatedUser _ => inl name_taken
       | _ => library_ok e
       end;
     http := fun _ _ _ => inr ok_response;
     clock := fun _ => time |}.

(** The fields of [request], as the handler destructures them. *)
Definition email : JSValue := JStr (js "student@example.com").
Definition task : JSValue := JStr (js "My Task").
Definition round : JSValue := JNum 1%float.
Definition nonce : JSValue := JStr (js "n1").
Definition brief_text : list N := js "todo app".
Definition brief : JSValue := JStr brief_text.
Definition callback : JSValue := JStr (js "http://test/cb").
Definition payload : JSValue := JObj [(js "task", JStr (js "My Task"))].

End Sample.

(** More surroundings: a clock that advances with every effect, a parser
    that reads every text as the empty object, and a list of attachments of
    which one has no url. *)
Module Scene.

Definition world_ticking : World :=
  {| reply := fun _ e => Sample.library_ok e;
     http := fun _ _ _ => inr Sample.ok_response;
     clock := fun h => (Sample.time + Z.of_nat (length h))%Z |}.


Definition nameless : JSValue :=
  JObj [(js "url", JStr (js "data:text/plain;base64,QQ=="))].

Definition no_url : JSValue := JObj [(js "name", JStr (js "notes.txt"))].

Definition attachments : list JSValue :=
  [nameless; Sample.attachment; no_url].

Definition artifact : JSValue :=
  JObj [(js "path", JStr (js "index.html")); (js "content", JStr (js "<p>hi</p>"))].


End Scene.

(** ** Running computations *)

Section Run.

Context {A B : Type}.

Lemma bind_throws (m : M A) (k : A -> M B) h o e :
  m h = (o, inl e) -> bind m k h = (o, inl e).
Proof. intros E. unfold bind. by rewrite E. Qed.

Lemma bind_returns (m : M A) (k : A -> M B) h o a :
  m h = (o, inr a) ->
  bind m k h = (o ++ (k a (h ++ o)).1, (k a (h ++ o)).2).
Proof. intros E. unfold bind. rewrite E. by destruct (k a (h ++ o)). Qed.

Lemma try_catch_throws (m : M A) (handler : Exn -> M A) h o e :
  m h = (o, inl e) ->
  try_catch m handler h = (o ++ (handler e (h ++ o)).1, (handler e (h ++ o)).2).
Proof. intros E. unfold try_catch. rewrite E. by destruct (handler e (h ++ o)). Qed.

Lemma try_catch_returns (m : M A) (handler : Exn -> M A) h o a :
  m h = (o, inr a) -> try_catch m handler h = (o, inr a).
Proof. intros E. unfold try_catch. by rewrite E. Qed.

(** The first effect of a computation is the first effect of whatever
    follows it with [bind] or guards it with [try_catch]. *)
Lemma bind_starts (m : M A) (k : A -> M B) h x :
  (exists rest, (m h).1 = x :: rest) ->
  exists rest, (bind m k h).1 = x :: rest.
Proof.
  unfold bind. destruct (m h) as [o [e|a]]; simpl; intros [rest ->].
  - by eexists.
  - destruct (k a (h ++ x :: rest)). by eexists.
Qed.

Lemma try_catch_starts (m : M A) (handler : Exn -> M A) h x :
  (exists rest, (m h).1 = x :: rest) ->
  exists rest, (try_catch m handler h).1 = x :: rest.
Proof.
  unfold try_catch. destruct (m h) as [o [e|a]]; simpl; intros [rest ->].
  - destruct (handler e (h ++ x :: rest)). by eexists.
  - by eexists.
Qed.

(** Rules for [emits], one per way of building a computation. *)
Lemma emits_ret P (a : A) : emits P (ret a).
Proof. intros h. constructor. Qed.

Lemma emits_throw P e : emits P (@throw A e).
Proof. intros h. constructor. Qed.

Lemma emits_lift P (r : Exn + A) : emits P (lift r).
Proof. intros h. constructor. Qed.

Lemma emits_bind P (m : M A) (k : A -> M B) :
  emits P m -> (forall a, emits P (k a)) -> emits P (bind m k).
Proof.
  intros Hm Hk h. unfold bind. specialize (Hm h).
  destruct (m h) as [o [e|a]]; [done|].
  specialize (Hk a (h ++ o)). destruct (k a (h ++ o)) as [o2 r].
  apply Forall_app. by split.
Qed.

Lemma emits_try_catch P (m : M A) (handler : Exn -> M A) :
  emits P m -> (forall e, emits P (handler e)) -> emits P (try_catch m handler).
Proof.
  intros Hm Hk h. unfold try_catch. specialize (Hm h).
  destruct (m h) as [o [e|a]]; [|done].
  specialize (Hk e (h ++ o)). destruct (handler e (h ++ o)) as [o2 r].
  apply Forall_app. by split.
Qed.

Lemma emits_impl (P Q : Effect -> Prop) (m : M A) :
  (forall e, P e -> Q e) -> emits P m -> emits Q m.
Proof. intros HPQ Hm h. eapply Forall_impl; [apply Hm | done]. Qed.

End Run.

Lemma emits_emit P e : P e -> emits P (emit e).
Proof. intros He h. by repeat constructor. Qed.

Lemma emits_call w P e : P e -> emits P (call w e).
Proof. intros He h. by repeat constructor. Qed.

Lemma emits_Date_now w P : emits P (Date_now w).
Proof. intros h. constructor. Qed.

(** Walks through a computation built from the combinators above. *)
Ltac emits_step :=
  first
    [ apply emits_ret | apply emits_throw | apply emits_lift
    | apply emits_Date_now
    | apply emits_emit; reflexivity
    | apply emits_call; reflexivity
    | apply emits_bind; [|intros ?]
    | match goal with
      | |- emits _ (match ?x with _ => _ end) => destruct x
      end ].

(** ** The front door *)

Section FrontDoor.

Variable rev : Revision.
Variable env : Env.
Variable w : World.
Variable decimal : float -> jsstring.
Variable JSON_parse : jsstring -> option JSValue.
Variable JSON_stringify : JSValue -> jsstring.
Variable path_join : jsstring -> jsstring -> jsstring.
Variable path_dirname : jsstring -> jsstring.

Local Abbreviation endpoint :=
  (api_endpoint rev env w decimal JSON_parse JSON_stringify path_join path_dirname).

(** A required field whose value is falsy, absent or not, gets the 400
    response and nothing else. *)
Lemma api_endpoint_falsy_field req_body k h :
  k ∈ required_fields ->
  truthy (prop (js_or req_body (JObj [])) k) = false ->
  endpoint req_body h = ([missing_fields_response], inr tt).
Proof.
  intros Hk Hf. unfold api_endpoint.
  assert (negb (truthy (prop (js_or req_body (JObj [])) "email"))
          || negb (truthy (prop (js_or req_body (JObj [])) "task"))
          || negb (truthy (prop (js_or req_body (JObj [])) "round"))
          || negb (truthy (prop (js_or req_body (JObj [])) "nonce"))
          || negb (truthy (prop (js_or req_body (JObj [])) "evaluation_url"))
          = true) as ->; [|done].
  unfold required_fields in Hk.
  repeat (apply elem_of_cons in Hk as [-> | Hk];
          [rewrite Hf; simpl; by rewrite ?orb_true_r |]).
  by apply elem_of_nil in Hk.
Qed.

Lemma prop_field req_body k :
  prop (js_or req_body (JObj [])) k = default JUndefined (field req_body k).
Proof.
  destruct req_body as [| |[]|n|[]| |]; try reflexivity.
  unfold js_or, truthy.
  by destruct (PrimFloat.eqb n 0 || PrimFloat.is_nan n).
Qed.

Lemma DEFAULT_SECRET_nonempty : DEFAULT_SECRET env <> [].
Proof.
  unfold DEFAULT_SECRET, env_or.
  by destruct (env_DEFAULT_SECRET env) as [[|c s]|].
Qed.

Lemma stored_secret_nonempty (e stored : list N) :
  studentSecrets env !! e = Some stored -> stored <> [].
Proof.
  unfold studentSecrets. intros L.
  apply lookup_insert_Some in L as [[_ <-] | [_ L]].
  - apply DEFAULT_SECRET_nonempty.
  - by rewrite lookup_empty in L.
Qed.

Lemma strict_equals_string v (s : list N) :
  strict_equals v (JStr s) = true <-> v = JStr s.
Proof.
  destruct v; simpl; try (split; [done | congruence]).
  rewrite bool_decide_eq_true. split; congruence.
Qed.

(** [verifySecret] compares with the expected secret of the
    specification. *)
Lemma verifySecret_expected email secret :
  verifySecret env email secret = true
  <-> secret = JStr (expected_secret env email).
Proof.
  unfold verifySecret, expected_secret, Map_get.
  destruct email as [| | | |e| |]; try apply strict_equals_string.
  destruct (studentSecrets env !! e) as [stored|] eqn:L;
    [|apply strict_equals_string].
  apply stored_secret_nonempty in L.
  destruct stored; [done | apply strict_equals_string].
Qed.

(** The first effect of the job is the creation of its working
    directory. *)
Lemma job_starts email task round nonce brief evaluation_url attachments h :
  exists rest,
    (process rev env w decimal JSON_parse JSON_stringify path_join path_dirname
       email task round nonce brief evaluation_url attachments h).1
    = TmpDirSync :: rest.
Proof.
  apply try_catch_starts. unfold job, materialize.
  do 2 apply bind_starts. by eexists.
Qed.

(** With all required fields in place the answer depends on the secret
    alone. *)
Lemma api_endpoint_complete req_body h :
  has_required_fields req_body = true ->
  endpoint req_body h
  = if verifySecret env (prop req_body "email") (prop req_body "secret")
    then (accepted_response
            :: (process rev env w decimal JSON_parse JSON_stringify path_join
                  path_dirname
                  (prop req_body "email") (prop req_body "task")
                  (prop req_body "round") (prop req_body "nonce")
                  (prop req_body "brief") (prop req_body "evaluation_url")
                  (prop req_body "attachments") (h ++ [accepted_response])).1,
          (process rev env w decimal JSON_parse JSON_stringify path_join path_dirname
             (prop req_body "email") (prop req_body "task")
             (prop req_body "round") (prop req_body "nonce")
             (prop req_body "brief") (prop req_body "evaluation_url")
             (prop req_body "attachments") (h ++ [accepted_response])).2)
    else ([invalid_secret_response], inr tt).
Proof.
  intros Hall.
  assert (forall k, In k required_fields ->
                    truthy (prop (js_or req_body (JObj [])) k) = true) as Ht.
  { intros k Hk. unfold has_required_fields in Hall.
    rewrite forallb_forall in Hall. specialize (Hall k Hk).
    rewrite prop_field. by destruct (field req_body k). }
  assert (js_or req_body (JObj []) = req_body) as Hb.
  { specialize (Ht "email"%string). by destruct req_body. }
  unfold api_endpoint.
  rewrite !Ht by (simpl; auto 10). rewrite Hb. cbn [negb orb].
  destruct (verifySecret env (prop req_body "email") (prop req_body "secret"));
    cbn [negb]; [|done].
  by rewrite (bind_returns _ _ h [accepted_response] tt).
Qed.

(** C4: a request body that lacks one of the fields email, task, round,
    nonce, evaluation_url is answered with status 400 and the error body
    [missing required fields], and that response is the only effect: no
    attachment is written, no artifact generated, no repository created
    and no callback attempted. *)
Theorem missing_field_rejected req_body k h :
  k ∈ required_fields ->
  field req_body k = None ->
  endpoint req_body h = ([missing_fields_response], inr tt)
  /\ missing_fields_response
     = Respond 400 (JObj [(js "error", JStr (js "missing required fields"))])
  /\ Forall (fun e => pipeline_effect e = false) (endpoint req_body h).1.
Proof.
  intros Hk Hf.
  assert (endpoint req_body h = ([missing_fields_response], inr tt)) as E.
  { apply api_endpoint_falsy_field with k; [done|].
    by rewrite prop_field, Hf. }
  rewrite E. repeat split. by repeat constructor.
Qed.

(** C10: a required field that is present with a falsy value (the number
    0, the empty string, false, null) is treated like a missing one: the
    request gets the 400 [missing required fields] response and nothing
    else happens. *)
Theorem falsy_field_rejected req_body k v h :
  k ∈ required_fields ->
  field req_body k = Some v ->
  truthy v = false ->
  endpoint req_body h = ([missing_fields_response], inr tt)
  /\ missing_fields_response
     = Respond 400 (JObj [(js "error", JStr (js "missing required fields"))]).
Proof.
  intros Hk Hf Hv. split; [|done].
  apply api_endpoint_falsy_field with k; [done|].
  by rewrite prop_field, Hf.
Qed.

(** C5, as the code has it: for a request whose required fields are all
    present with truthy values, a secret that differs from the expected one
    (the stored secret of a known email, the fallback default for an
    unknown one) gets the 401 response and nothing else happens; a secret
    equal to the expected one gets the 200 acceptance response, after which
    the job starts. *)
Theorem secret_gate req_body h :
  has_required_fields req_body = true ->
  let expected := expected_secret env (prop req_body "email") in
  (prop req_body "secret" <> JStr expected ->
     endpoint req_body h = ([invalid_secret_response], inr tt)
     /\ invalid_secret_response
        = Respond 401 (JObj [(js "error", JStr (js "invalid secret"))]))
  /\ (prop req_body "secret" = JStr expected ->
        exists rest,
          (endpoint req_body h).1 = accepted_response :: TmpDirSync :: rest
          /\ accepted_response
             = Respond 200 (JObj [(js "status", JStr (js "accepted"))])).
Proof.
  intros Hall expected. rewrite (api_endpoint_complete req_body h Hall).
  destruct (verifySecret env (prop req_body "email") (prop req_body "secret"))
    eqn:V.
  - apply verifySecret_expected in V. split; [done|]. intros _. cbn [fst].
    destruct (job_starts (prop req_body "email") (prop req_body "task")
                (prop req_body "round") (prop req_body "nonce")
                (prop req_body "brief") (prop req_body "evaluation_url")
                (prop req_body "attachments") (h ++ [accepted_response]))
      as [rest ->].
    by eexists.
  - split; [done|]. intros E. apply verifySecret_expected in E. congruence.
Qed.

End FrontDoor.

(** ** The Callback Notifier *)

Section Notifier.

Variable w : World.
Variables evaluation_url body : JSValue.

Local Abbreviation post := (AxiosPost evaluation_url body).

(** A failed attempt is followed by the current wait and the rest of the
    loop with the wait doubled. *)
Lemma notify_loop_retry n delay h :
  delivered (http w h evaluation_url body) = None ->
  notify_loop w evaluation_url body (S n) delay h
  = (post :: SetTimeout delay
       :: (notify_loop w evaluation_url body n (delay * 2)
             (h ++ [post; SetTimeout delay])).1,
     (notify_loop w evaluation_url body n (delay * 2)
        (h ++ [post; SetTimeout delay])).2).
Proof.
  intros F. cbn [notify_loop].
  rewrite (bind_returns _ _ h [post] None)
    by (unfold post_attempt; by rewrite F).
  rewrite (bind_returns _ _ (h ++ [post]) [SetTimeout delay] tt)
    by reflexivity.
  cbn [fst snd]. by rewrite <- !app_assoc.
Qed.

(** A delivered attempt ends the loop at once. *)
Lemma notify_loop_delivered n delay h d :
  delivered (http w h evaluation_url body) = Some d ->
  notify_loop w evaluation_url body (S n) delay h = ([post], inr d).
Proof.
  intros F. cbn [notify_loop].
  rewrite (bind_returns _ _ h [post] (Some d))
    by (unfold post_attempt; by rewrite F).
  reflexivity.
Qed.

(** The two outcomes of an attempt in the words of the specification, and
    what the loop makes of them. *)
Lemma attempt_fails_delivered r : attempt_fails r <-> delivered r = None.
Proof.
  unfold attempt_fails, delivered. destruct r as [e|resp]; [done|].
  destruct (Z.leb_spec 200 (status resp)), (Z.ltb_spec (status resp) 300);
    simpl; split; try done; try lia.
Qed.

Lemma attempt_succeeds_delivered r d :
  delivered r = Some d
  <-> exists resp, attempt_succeeds r resp /\ d = data resp.
Proof.
  unfold attempt_succeeds, delivered. destruct r as [e|resp].
  - split; [done|]. by intros (resp & [? _] & _).
  - destruct (Z.leb_spec 200 (status resp)), (Z.ltb_spec (status resp) 300);
      simpl; (split; [intros [= <-] | intros (resp' & [[= <-] ?] & ->)]);
      try done; try lia.
    by exists resp.
Qed.

Lemma failed_attempts_snoc h k delay :
  (h ++ [post; SetTimeout delay])
    ++ failed_attempts evaluation_url body k (delay * 2)
  = h ++ failed_attempts evaluation_url body (S k) delay.
Proof. by rewrite <- app_assoc. Qed.

(** A run of failures uses up the iterations that are left. *)
Lemma notify_loop_exhausts n : forall delay h,
  (forall k, (k < n)%nat ->
     attempt_fails
       (http w (h ++ failed_attempts evaluation_url body k delay)
          evaluation_url body)) ->
  notify_loop w evaluation_url body n delay h
  = (failed_attempts evaluation_url body n delay,
     inl (Error (js "Failed to notify evaluation_url after retries"))).
Proof.
  induction n as [|n IH]; intros delay h F; [done|].
  rewrite notify_loop_retry.
  - rewrite IH; [done|]. intros k Hk. rewrite failed_attempts_snoc.
    apply F. lia.
  - apply attempt_fails_delivered. specialize (F 0%nat).
    cbn [failed_attempts] in F. rewrite app_nil_r in F. apply F. lia.
Qed.

(** C1: against a target that fails each of the attempts made (the
    request is rejected, or answered outside 200..299) the notifier posts
    exactly five times, waits 1000, 2000, 4000 and 8000 ms between
    consecutive posts (and 16000 ms after the fifth), and then throws its
    delivery-failure error; when the first attempt is answered with a 2xx
    status it posts once, waits for nothing and returns the data of that
    response. *)
Theorem notifier_retry_policy h :
  ((forall k, (k < 5)%nat ->
      attempt_fails
        (http w (h ++ failed_attempts evaluation_url body k 1000)
           evaluation_url body)) ->
     notifyEvaluationUrl w evaluation_url body default_maxRetries h
     = ([post; SetTimeout 1000; post; SetTimeout 2000; post; SetTimeout 4000;
         post; SetTimeout 8000; post; SetTimeout 16000],
        inl (Error (js "Failed to notify evaluation_url after retries")))
     /\ attempts
          (notifyEvaluationUrl w evaluation_url body default_maxRetries h).1
        = 5%nat
     /\ delays_between_attempts
          (notifyEvaluationUrl w evaluation_url body default_maxRetries h).1
        = [1000; 2000; 4000; 8000]%float)
  /\ (forall resp,
        attempt_succeeds (http w h evaluation_url body) resp ->
        notifyEvaluationUrl w evaluation_url body default_maxRetries h
        = ([post], inr (data resp))
        /\ attempts
             (notifyEvaluationUrl w evaluation_url body default_maxRetries h).1
           = 1%nat
        /\ waits
             (notifyEvaluationUrl w evaluation_url body default_maxRetries h).1
           = []).
Proof.
  unfold notifyEvaluationUrl, default_maxRetries. split.
  - intros F. rewrite (notify_loop_exhausts 5 1000 h F). by vm_compute.
  - intros resp S.
    rewrite (notify_loop_delivered 4 1000 h (data resp)); [done|].
    apply attempt_succeeds_delivered. by exists resp.
Qed.

End Notifier.

(** ** Repository names *)

Section RepositoryName.

Lemma digit_char_base36 d : d < 36 -> is_base36_char (digit_char d) = true.
Proof.
  intros Hd. unfold is_base36_char, digit_char.
  destruct (N.ltb_spec d 10).
  - replace (48 <=? 48 + d) with true by (symmetry; apply N.leb_le; lia).
    replace (48 + d <=? 57) with true by (symmetry; apply N.leb_le; lia).
    by rewrite orb_true_r.
  - replace (97 <=? 87 + d) with true by (symmetry; apply N.leb_le; lia).
    by replace (87 + d <=? 122) with true by (symmetry; apply N.leb_le; lia).
Qed.

Lemma radix_digits_base36 fuel n :
  Forall (fun c => is_base36_char c = true) (radix_digits 36 fuel n).
Proof.
  revert n. induction fuel as [|f IH]; intros n; cbn [radix_digits].
  - constructor.
  - destruct (N.ltb_spec n 36).
    + repeat constructor. by apply digit_char_base36.
    + apply Forall_app. split; [apply IH|].
      repeat constructor. apply digit_char_base36.
      by apply N.mod_lt.
Qed.

(** A number of at least [36^k] has more than [k] digits, given the fuel
    to print them. *)
Lemma radix_digits_length k : forall fuel n,
  (k < fuel)%nat -> 36 ^ N.of_nat k <= n ->
  (k < length (radix_digits 36 fuel n))%nat.
Proof.
  induction k as [|k IH]; intros [|f] n Hf Hn; try lia; cbn [radix_digits].
  - destruct (n <? 36); [simpl; lia | rewrite length_app; simpl; lia].
  - rewrite Nat2N.inj_succ, N.pow_succ_r' in Hn.
    assert (36 ^ N.of_nat k <> 0) by (by apply N.pow_nonzero).
    destruct (N.ltb_spec n 36); [lia|].
    rewrite length_app. simpl.
    assert (k < length (radix_digits 36 f (n / 36)))%nat; [|lia].
    apply IH; [lia|].
    apply N.div_le_lower_bound; lia.
Qed.

Lemma timestamp_fragment_base36 t :
  (0 <= t)%Z ->
  Forall (fun c => is_base36_char c = true) (timestamp_fragment t).
Proof.
  intros Ht. unfold timestamp_fragment, slice_last, Number_toString.
  replace (t <? 0)%Z with false by (symmetry; apply Z.ltb_ge; lia).
  apply Forall_drop, radix_digits_base36.
Qed.

Lemma timestamp_fragment_length t :
  (36 ^ 5 <= t)%Z -> length (timestamp_fragment t) = 6%nat.
Proof.
  intros Ht. unfold timestamp_fragment, slice_last, Number_toString.
  replace (t <? 0)%Z with false by (symmetry; apply Z.ltb_ge; lia).
  rewrite length_drop. cbn [app].
  assert (36 ^ 5 <= Z.to_N (Z.abs t)) as Hm by lia.
  assert (5 < length (radix_digits 36
                        (S (N.to_nat (N.log2 (Z.to_N (Z.abs t)))))
                        (Z.to_N (Z.abs t))))%nat; [|lia].
  apply radix_digits_length; [|exact Hm].
  apply N.log2_le_mono in Hm.
  change (N.log2 (36 ^ 5)) with 25 in Hm. lia.
Qed.

Lemma base36_slug_char c : is_base36_char c = true -> is_slug_char c = true.
Proof. unfold is_base36_char, is_slug_char. intros ->. done. Qed.

(** What [shortName] does to a single code unit. *)
Lemma shortName_char c :
  (let c' := if in_class c then c else hyphen in
   if (65 <=? c') && (c' <=? 90) then c' + 32 else c')
  = spec_slug_char c.
Proof.
  unfold spec_slug_char, in_class, is_slug_char, hyphen. cbv zeta.
  destruct (N.leb_spec 97 c), (N.leb_spec c 122), (N.leb_spec 65 c),
    (N.leb_spec c 90), (N.leb_spec 48 c), (N.leb_spec c 57),
    (N.eqb_spec c 45); cbn [andb orb]; try lia; try reflexivity;
    repeat match goal with
           | |- context [?a <=? ?b] => destruct (N.leb_spec a b)
           end; cbn [andb orb]; try lia; reflexivity.
Qed.

Lemma spec_slug_char_ok c : is_slug_char (spec_slug_char c) = true.
Proof.
  unfold spec_slug_char. destruct (is_slug_char c) eqn:E; [done|].
  destruct (N.leb_spec 65 c), (N.leb_spec c 90); cbn [andb]; try done.
  unfold is_slug_char.
  replace (97 <=? c + 32) with true by (symmetry; apply N.leb_le; lia).
  by replace (c + 32 <=? 122) with true by (symmetry; apply N.leb_le; lia).
Qed.

(** The code computes the slug of the specification. *)
Lemma shortName_spec_slug (task : list N) :
  task <> [] -> shortName (JStr task) = inr (spec_slug task).
Proof.
  intros Hne. unfold shortName, js_or, truthy, spec_slug, slice_to.
  destruct task as [|c r]; [done|]. f_equal. f_equal.
  unfold toLowerCase, replace_outside_class.
  rewrite map_map. apply map_ext. intros a. apply shortName_char.
Qed.

Lemma timestamp_fragment_slug t :
  Forall (fun c => is_slug_char c = true) (timestamp_fragment t).
Proof.
  unfold timestamp_fragment, slice_last, Number_toString.
  apply Forall_drop, Forall_app. split.
  - destruct (t <? 0)%Z; by repeat constructor.
  - eapply Forall_impl; [apply radix_digits_base36|].
    intros c. apply base36_slug_char.
Qed.

Lemma digit_value_char d : d < 36 -> digit_value (digit_char d) = d.
Proof.
  intros Hd. unfold digit_value, digit_char.
  destruct (N.ltb_spec d 10).
  - destruct (N.ltb_spec (48 + d) 58); lia.
  - destruct (N.ltb_spec (87 + d) 58); lia.
Qed.

Lemma digit_value_bound c : is_base36_char c = true -> digit_value c < 36.
Proof.
  unfold is_base36_char, digit_value.
  destruct (N.leb_spec 97 c), (N.leb_spec c 122), (N.leb_spec 48 c),
    (N.leb_spec c 57), (N.ltb_spec c 58); cbn [andb orb]; try done; lia.
Qed.

Lemma base36_fold (l : list N) : forall acc,
  fold_left (fun a c => a * 36 + digit_value c) l acc
  = acc * 36 ^ N.of_nat (length l) + base36_value l.
Proof.
  unfold base36_value.
  induction l as [|c l IH]; intros acc; cbn [fold_left length].
  - rewrite N.pow_0_r. lia.
  - rewrite IH, (IH (0 * 36 + digit_value c)).
    rewrite Nat2N.inj_succ, N.pow_succ_r'. lia.
Qed.

Lemma base36_value_app (l1 l2 : list N) :
  base36_value (l1 ++ l2)
  = base36_value l1 * 36 ^ N.of_nat (length l2) + base36_value l2.
Proof.
  unfold base36_value at 1. rewrite fold_left_app.
  fold (base36_value l1). apply base36_fold.
Qed.

Lemma base36_value_bound (l : list N) :
  Forall (fun c => is_base36_char c = true) l ->
  base36_value l < 36 ^ N.of_nat (length l).
Proof.
  induction l as [|c l IH] using rev_ind; intros F.
  - cbn. lia.
  - apply Forall_app in F as [Fl Fc]. apply Forall_cons in Fc as [Fc _].
    rewrite base36_value_app, length_app. cbn [length].
    replace (N.of_nat (length l + 1)) with (N.succ (N.of_nat (length l))) by lia.
    rewrite N.pow_succ_r', N.pow_1_r.
    specialize (IH Fl). apply digit_value_bound in Fc.
    change (base36_value [c]) with (0 * 36 + digit_value c). lia.
Qed.

(** Reading back what [toString(36)] printed gives the number. *)
Lemma base36_value_digits fuel : forall n,
  n < 2 ^ N.of_nat fuel -> base36_value (radix_digits 36 fuel n) = n.
Proof.
  induction fuel as [|f IH]; intros n Hn; cbn [radix_digits].
  - cbn in Hn. assert (n = 0) as -> by lia. reflexivity.
  - destruct (N.ltb_spec n 36).
    + change (base36_value [digit_char n]) with (0 * 36 + digit_value (digit_char n)).
      rewrite digit_value_char by done. lia.
    + rewrite base36_value_app. cbn [length].
      change (base36_value [digit_char (n mod 36)])
        with (0 * 36 + digit_value (digit_char (n mod 36))).
      rewrite digit_value_char by (by apply N.mod_lt).
      rewrite IH.
      * rewrite N.pow_1_r. rewrite (N.div_mod n 36) at 3 by done. lia.
      * rewrite Nat2N.inj_succ, N.pow_succ_r' in Hn.
        apply N.Div0.div_lt_upper_bound. lia.
Qed.

Lemma Number_toString_36_value t :
  (0 <= t)%Z ->
  Number_toString 36 t
  = radix_digits 36 (S (N.to_nat (N.log2 (Z.to_N t)))) (Z.to_N t)
  /\ base36_value (Number_toString 36 t) = Z.to_N t.
Proof.
  intros Ht. unfold Number_toString.
  replace (t <? 0)%Z with false by (symmetry; apply Z.ltb_ge; lia).
  rewrite Z.abs_eq by done. cbn [app]. split; [done|].
  apply base36_value_digits.
  rewrite Nat2N.inj_succ, N2Nat.id.
  destruct (N.eq_dec (Z.to_N t) 0) as [-> | Hz]; [done|].
  apply N.log2_spec. lia.
Qed.

(** The last six digits of a base-36 numeral are its value modulo 36^6. *)
Lemma base36_value_slice_last (l : list N) :
  Forall (fun c => is_base36_char c = true) l ->
  base36_value (slice_last 6 l) = base36_value l mod 36 ^ 6.
Proof.
  intros Hb. unfold slice_last.
  destruct (decide (length l <= 6)%nat) as [Hs | Hl].
  - replace (length l - 6)%nat with 0%nat by lia. rewrite drop_0.
    symmetry. apply N.mod_small.
    apply base36_value_bound in Hb.
    eapply N.lt_le_trans; [exact Hb|].
    apply N.pow_le_mono_r; lia.
  - rewrite <- (take_drop (length l - 6) l) at 3.
    rewrite base36_value_app.
    assert (length (drop (length l - 6) l) = 6%nat) as L6
        by (rewrite length_drop; lia).
    rewrite L6.
    pose proof (base36_value_bound (drop (length l - 6) l)
                  (Forall_drop _ _ _ Hb)) as Hlt.
    rewrite L6 in Hlt. change (N.of_nat 6) with 6 in *.
    rewrite N.add_comm, N.Div0.mod_add.
    symmetry. by apply N.mod_small.
Qed.

(** The fragment keeps the low six base-36 digits of the clock reading. *)
Lemma timestamp_fragment_reads t :
  (0 <= t)%Z ->
  base36_value (timestamp_fragment t) = Z.to_N t mod 36 ^ 6.
Proof.
  intros Ht. unfold timestamp_fragment.
  destruct (Number_toString_36_value t Ht) as [Hd Hv].
  rewrite base36_value_slice_last, Hv; [done|].
  rewrite Hd. apply radix_digits_base36.
Qed.

(** C7: for a task name (a non-empty string) the derived repository name
    is the slug of the specification (characters outside [a-z0-9-],
    compared without regard to case, replaced by hyphens; lowercased; cut
    to at most 40 characters), a hyphen, and the timestamp fragment: the
    last six characters of the clock reading printed in base 36, which read
    back as a base-36 number give the reading modulo 36^6; the whole name
    holds characters of [a-z0-9-] only; once the clock is past its first
    36^5 ms the fragment is six base-36 digits long; and the slug of
    [Hello, World! 2024] is [hello--world--2024]. *)
Theorem repoName_shape w (task : list N) h :
  task <> [] ->
  let fragment := timestamp_fragment (clock w h) in
  repoName w (JStr task) h = ([], inr (spec_slug task ++ js "-" ++ fragment))
  /\ (length (spec_slug task) <= 40)%nat
  /\ Forall (fun c => is_slug_char c = true)
       (spec_slug task ++ js "-" ++ fragment)
  /\ fragment = slice_last 6 (Number_toString 36 (clock w h))
  /\ ((0 <= clock w h)%Z ->
      base36_value fragment = Z.to_N (clock w h) mod 36 ^ 6)
  /\ ((36 ^ 5 <= clock w h)%Z ->
      length fragment = 6%nat
      /\ Forall (fun c => is_base36_char c = true) fragment)
  /\ shortName (JStr (js "Hello, World! 2024")) = inr (js "hello--world--2024").
Proof.
  intros Hne fragment. split_and!.
  - unfold repoName.
    rewrite (bind_returns _ _ h [] (spec_slug task))
      by (unfold lift; by rewrite shortName_spec_slug).
    unfold bind, Date_now, ret. cbn [fst snd app].
    by rewrite !app_nil_r.
  - unfold spec_slug. rewrite length_take. lia.
  - apply Forall_app. split.
    + unfold spec_slug. apply Forall_take, Forall_fmap, Forall_true.
      intros c. apply spec_slug_char_ok.
    + apply Forall_app. split; [by repeat constructor|].
      apply timestamp_fragment_slug.
  - reflexivity.
  - apply timestamp_fragment_reads.
  - intros Ht. split.
    + by apply timestamp_fragment_length.
    + apply timestamp_fragment_base36. lia.
  - reflexivity.
Qed.

End RepositoryName.

(** ** The pipeline, stage by stage *)

Section Pipeline.

Variable rev : Revision.
Variable env : Env.
Variable w : World.
Variable decimal : float -> jsstring.
Variable JSON_parse : jsstring -> option JSValue.
Variable JSON_stringify : JSValue -> jsstring.
Variable path_join : jsstring -> jsstring -> jsstring.
Variable path_dirname : jsstring -> jsstring.

Local Abbreviation materialize' := (materialize rev w decimal path_join).
Local Abbreviation generate' := (generate rev env w decimal JSON_parse JSON_stringify).
Local Abbreviation publish' := (createGithubRepoAndPush rev env w decimal path_join path_dirname).
Local Abbreviation process' :=
  (process rev env w decimal JSON_parse JSON_stringify path_join path_dirname).
Local Abbreviation failed := (ConsoleError (js "Processing failed:")).

(** *** Which effects each stage can have *)

Lemma writeAttachments_loop_emits atts targetDir written :
  emits (fun e => materializer_effect e = true)
    (writeAttachments_loop rev w decimal path_join atts targetDir written).
Proof.
  revert written. induction atts as [|att rest IH]; intros written;
    cbn [writeAttachments_loop]; repeat emits_step; apply IH.
Qed.

Lemma materialize_emits attachments :
  emits (fun e => materializer_effect e = true) (materialize' attachments).
Proof.
  unfold materialize, writeAttachments.
  repeat emits_step; apply writeAttachments_loop_emits.
Qed.

Lemma generateFilesWithLLM_emits brief attachments :
  emits (fun e => is_generation e = true)
    (generateFilesWithLLM rev env w decimal JSON_parse JSON_stringify brief attachments).
Proof. unfold generateFilesWithLLM. repeat emits_step. Qed.

Lemma generate_emits brief attachments :
  emits (fun e => is_generation e = true) (generate' brief attachments).
Proof.
  unfold generate. repeat emits_step. apply generateFilesWithLLM_emits.
Qed.

Lemma repoName_emits task : emits (fun _ => False) (repoName w task).
Proof. unfold repoName. repeat emits_step. Qed.

Lemma write_files_emits files tmpDir :
  emits (fun e => publisher_effect e = true)
    (write_files rev w decimal path_join path_dirname files tmpDir).
Proof.
  induction files as [|f rest IH]; cbn [write_files];
    repeat emits_step; apply IH.
Qed.

Lemma createGithubRepoAndPush_emits owner name files readme :
  emits (fun e => publisher_effect e = true) (publish' owner name files readme).
Proof.
  unfold createGithubRepoAndPush.
  repeat emits_step; apply write_files_emits.
Qed.

Lemma notify_loop_emits evaluation_url body n delay :
  emits (fun e => e = AxiosPost evaluation_url body \/ exists ms, e = SetTimeout ms)
    (notify_loop w evaluation_url body n delay).
Proof.
  revert delay. induction n as [|n IH]; intros delay; cbn [notify_loop].
  - apply emits_throw.
  - apply emits_bind.
    + intros h. repeat constructor.
    + intros [d|]; [apply emits_ret|].
      apply emits_bind; [apply emits_emit; eauto | intros _; apply IH].
Qed.

(** *** How far a job gets *)

Section Job.

Variables email task round nonce brief evaluation_url attachments : JSValue.

Local Abbreviation job' :=
  (job rev env w decimal JSON_parse JSON_stringify path_join path_dirname
     email task round nonce brief evaluation_url attachments).
Local Abbreviation run :=
  (process' email task round nonce brief evaluation_url attachments).
Local Abbreviation notify_and_log result :=
  (_ <- notifyEvaluationUrl w evaluation_url
          (notifyBody email task round nonce result) default_maxRetries;;
   emit (ConsoleLog (js "Notified evaluation_url for") task)).

(** An exception of the job is logged by the handler, and that is
    all. *)
Lemma process_logs h o e :
  job' h = (o, inl e) -> run h = (o ++ [failed e], inr tt).
Proof.
  intros E. unfold process.
  by rewrite (try_catch_throws _ _ h o e E).
Qed.

Lemma job_materialize_fails h o1 e :
  materialize' attachments h = (o1, inl e) -> job' h = (o1, inl e).
Proof. intros E1. unfold job. by apply bind_throws. Qed.

Lemma job_generate_fails h o1 o2 e :
  materialize' attachments h = (o1, inr tt) ->
  generate' brief attachments (h ++ o1) = (o2, inl e) ->
  job' h = (o1 ++ o2, inl e).
Proof.
  intros E1 E2. unfold job.
  rewrite (bind_returns _ _ h o1 tt E1).
  by rewrite (bind_throws _ _ (h ++ o1) o2 e E2).
Qed.

Lemma job_repoName_fails h o1 o2 artifacts o3 e :
  materialize' attachments h = (o1, inr tt) ->
  generate' brief attachments (h ++ o1) = (o2, inr artifacts) ->
  repoName w task ((h ++ o1) ++ o2) = (o3, inl e) ->
  job' h = (o1 ++ o2 ++ o3, inl e).
Proof.
  intros E1 E2 E3. unfold job.
  rewrite (bind_returns _ _ h o1 tt E1).
  rewrite (bind_returns _ _ (h ++ o1) o2 artifacts E2).
  by rewrite (bind_throws _ _ ((h ++ o1) ++ o2) o3 e E3).
Qed.

Lemma job_publish_fails h o1 o2 artifacts o3 name o4 e :
  materialize' attachments h = (o1, inr tt) ->
  generate' brief attachments (h ++ o1) = (o2, inr artifacts) ->
  repoName w task ((h ++ o1) ++ o2) = (o3, inr name) ->
  publish' JNull name artifacts.1 artifacts.2 (((h ++ o1) ++ o2) ++ o3)
  = (o4, inl e) ->
  job' h = (o1 ++ o2 ++ o3 ++ o4, inl e).
Proof.
  intros E1 E2 E3 E4. unfold job.
  rewrite (bind_returns _ _ h o1 tt E1).
  rewrite (bind_returns _ _ (h ++ o1) o2 artifacts E2).
  rewrite (bind_returns _ _ ((h ++ o1) ++ o2) o3 name E3).
  unfold publish_and_notify.
  by rewrite (bind_throws _ _ (((h ++ o1) ++ o2) ++ o3) o4 e E4).
Qed.

Lemma job_published h o1 o2 artifacts o3 name o4 result :
  materialize' attachments h = (o1, inr tt) ->
  generate' brief attachments (h ++ o1) = (o2, inr artifacts) ->
  repoName w task ((h ++ o1) ++ o2) = (o3, inr name) ->
  publish' JNull name artifacts.1 artifacts.2 (((h ++ o1) ++ o2) ++ o3)
  = (o4, inr result) ->
  job' h
  = (o1 ++ o2 ++ o3 ++ o4
       ++ (notify_and_log result ((((h ++ o1) ++ o2) ++ o3) ++ o4)).1,
     (notify_and_log result ((((h ++ o1) ++ o2) ++ o3) ++ o4)).2).
Proof.
  intros E1 E2 E3 E4. unfold job.
  rewrite (bind_returns _ _ h o1 tt E1).
  rewrite (bind_returns _ _ (h ++ o1) o2 artifacts E2).
  rewrite (bind_returns _ _ ((h ++ o1) ++ o2) o3 name E3).
  unfold publish_and_notify.
  by rewrite (bind_returns _ _ (((h ++ o1) ++ o2) ++ o3) o4 result E4).
Qed.

(** The trace of the [try] statement is the trace of the job, followed
    by the log line of the handler if the job threw. *)
Lemma process_trace h :
  (run h).1
  = (job' h).1
      ++ match (job' h).2 with
         | inl e => [failed e]
         | inr _ => []
         end.
Proof.
  unfold process, try_catch.
  destruct (job' h) as [o [e|[]]]; cbn; [done | by rewrite app_nil_r].
Qed.

Lemma no_post_materializer e : materializer_effect e = true -> is_post e = false.
Proof. by destruct e. Qed.

Lemma no_post_generator e : is_generation e = true -> is_post e = false.
Proof. by destruct e. Qed.

Lemma no_post_publisher e : publisher_effect e = true -> is_post e = false.
Proof. by destruct e. Qed.

Lemma no_downstream_materializer e :
  materializer_effect e = true -> downstream_effect e = false.
Proof. by destruct e. Qed.

Lemma no_publish_generator e :
  is_generation e = true -> is_publish e = false /\ is_post e = false.
Proof. by destruct e. Qed.

Lemma failed_not_post e : is_post (failed e) = false.
Proof. done. Qed.

Lemma notify_and_log_posts result :
  emits (fun e => is_post e = true ->
                  e = AxiosPost evaluation_url
                        (notifyBody email task round nonce result))
    (notify_and_log result).
Proof.
  apply emits_bind.
  - eapply emits_impl; [|apply notify_loop_emits].
    intros e [-> | [ms ->]]; [done | discriminate].
  - intros _. apply emits_emit. discriminate.
Qed.

(** A failure of the publisher is logged, and no POST is in the
    trace. *)
Lemma publish_failure_trace h o1 o2 artifacts o3 name o4 e :
  materialize' attachments h = (o1, inr tt) ->
  generate' brief attachments (h ++ o1) = (o2, inr artifacts) ->
  repoName w task ((h ++ o1) ++ o2) = (o3, inr name) ->
  publish' JNull name artifacts.1 artifacts.2 (((h ++ o1) ++ o2) ++ o3)
  = (o4, inl e) ->
  run h = (o1 ++ o2 ++ o3 ++ o4 ++ [failed e], inr tt)
  /\ Forall (fun x => is_post x = false) (run h).1.
Proof.
  intros E1 E2 E3 E4.
  pose proof (job_publish_fails h o1 o2 artifacts o3 name o4 e E1 E2 E3 E4) as J.
  apply process_logs in J. rewrite <- !app_assoc in J.
  split; [done|]. rewrite J. cbn [fst].
  pose proof (materialize_emits attachments h) as F1.
  pose proof (generate_emits brief attachments (h ++ o1)) as F2.
  pose proof (repoName_emits task ((h ++ o1) ++ o2)) as F3.
  pose proof (createGithubRepoAndPush_emits JNull name artifacts.1
                artifacts.2 (((h ++ o1) ++ o2) ++ o3)) as F4.
  rewrite E1 in F1. rewrite E2 in F2. rewrite E3 in F3. rewrite E4 in F4.
  repeat apply Forall_app_2.
  - eapply Forall_impl; [exact F1 | apply no_post_materializer].
  - eapply Forall_impl; [exact F2 | apply no_post_generator].
  - eapply Forall_impl; [exact F3 | done].
  - eapply Forall_impl; [exact F4 | apply no_post_publisher].
  - by repeat constructor.
Qed.

Lemma attempts_none l :
  Forall (fun x => is_post x = false) l -> attempts l = 0%nat.
Proof.
  unfold attempts. induction 1 as [|x l Hx _ IH]; [done|].
  cbn. by rewrite Hx.
Qed.

(** C6: when the job reaches the Repository Publisher and the publisher
    fails (the repository host rejects the creation or the push, or any
    other step of it throws), the handler logs the failure and the job
    ends there: the trace of the job holds no POST to the callback
    URL. *)
Theorem publish_failure_terminal h o1 o2 artifacts o3 name o4 e :
  materialize' attachments h = (o1, inr tt) ->
  generate' brief attachments (h ++ o1) = (o2, inr artifacts) ->
  repoName w task ((h ++ o1) ++ o2) = (o3, inr name) ->
  publish' JNull name artifacts.1 artifacts.2 (((h ++ o1) ++ o2) ++ o3)
  = (o4, inl e) ->
  run h = (o1 ++ o2 ++ o3 ++ o4 ++ [ConsoleError (js "Processing failed:") e],
           inr tt)
  /\ attempts (run h).1 = 0%nat
  /\ Forall (fun x => is_post x = false) (run h).1.
Proof.
  intros E1 E2 E3 E4.
  destruct (publish_failure_trace h o1 o2 artifacts o3 name o4 e
              E1 E2 E3 E4) as [J F].
  repeat split; [done | by apply attempts_none | done].
Qed.

(** C9: in a job that reaches notification (its trace holds a delivery
    attempt),
    the publisher has returned a Publish Result, and every POST of the
    job, first attempt and retries alike, goes to the request's
    evaluation_url with one and the same body: the request's email,
    task, round and nonce, the result's repo_url and commit_sha, and
    deploy_url null. *)
Theorem callback_payload_fixed h :
  attempts (run h).1 <> 0%nat ->
  exists o1 o2 artifacts o3 name o4 result,
    materialize' attachments h = (o1, inr tt)
    /\ generate' brief attachments (h ++ o1) = (o2, inr artifacts)
    /\ repoName w task ((h ++ o1) ++ o2) = (o3, inr name)
    /\ publish' JNull name artifacts.1 artifacts.2 (((h ++ o1) ++ o2) ++ o3)
       = (o4, inr result)
    /\ forall u' b',
         AxiosPost u' b' ∈ (run h).1 ->
         u' = evaluation_url
         /\ b' = JObj [(js "email", email); (js "task", task);
                       (js "round", round); (js "nonce", nonce);
                       (js "repo_url", prop result "repo_url");
                       (js "commit_sha", prop result "commit_sha");
                       (js "deploy_url", JNull)].
Proof.
  intros Hin.
  assert (forall l, Forall (fun x => is_post x = false) l ->
                    attempts l <> 0%nat -> False) as absurd.
  { intros l F Hl. by apply Hl, attempts_none. }
  pose proof (materialize_emits attachments h) as F1.
  destruct (materialize' attachments h) as [o1 [e|[]]] eqn:E1.
  { exfalso. apply (absurd (run h).1); [|done].
    rewrite (process_logs h o1 e (job_materialize_fails h o1 e E1)).
    apply Forall_app_2; [|by repeat constructor].
    eapply Forall_impl; [exact F1 | apply no_post_materializer]. }
  pose proof (generate_emits brief attachments (h ++ o1)) as F2.
  destruct (generate' brief attachments (h ++ o1)) as [o2 [e|artifacts]] eqn:E2.
  { exfalso. apply (absurd (run h).1); [|done].
    rewrite (process_logs h _ e (job_generate_fails h o1 o2 e E1 E2)).
    repeat apply Forall_app_2; [| |by repeat constructor].
    - eapply Forall_impl; [exact F1 | apply no_post_materializer].
    - eapply Forall_impl; [exact F2 | apply no_post_generator]. }
  pose proof (repoName_emits task ((h ++ o1) ++ o2)) as F3.
  destruct (repoName w task ((h ++ o1) ++ o2)) as [o3 [e|name]] eqn:E3.
  { exfalso. apply (absurd (run h).1); [|done].
    rewrite (process_logs h _ e
               (job_repoName_fails h o1 o2 artifacts o3 e E1 E2 E3)).
    repeat apply Forall_app_2; [| | |by repeat constructor].
    - eapply Forall_impl; [exact F1 | apply no_post_materializer].
    - eapply Forall_impl; [exact F2 | apply no_post_generator].
    - eapply Forall_impl; [exact F3 | done]. }
  pose proof (createGithubRepoAndPush_emits JNull name artifacts.1
                artifacts.2 (((h ++ o1) ++ o2) ++ o3)) as F4.
  destruct (publish' JNull name artifacts.1 artifacts.2
              (((h ++ o1) ++ o2) ++ o3)) as [o4 [e|result]] eqn:E4.
  { exfalso.
    destruct (publish_failure_trace h o1 o2 artifacts o3 name o4 e
                E1 E2 E3 E4) as [_ F].
    by apply (absurd (run h).1). }
  exists o1, o2, artifacts, o3, name, o4, result.
  split_and!; try done. intros u' b' Hin'.
  fold (notifyBody email task round nonce result).
  assert (Forall (fun x => is_post x = true ->
                           x = AxiosPost evaluation_url
                                 (notifyBody email task round nonce result))
            (run h).1) as F.
  { rewrite process_trace,
      (job_published h o1 o2 artifacts o3 name o4 result E1 E2 E3 E4).
    cbn [fst snd].
    pose proof (notify_and_log_posts result
                  ((((h ++ o1) ++ o2) ++ o3) ++ o4)) as F5.
    repeat apply Forall_app_2.
    - eapply Forall_impl; [exact F1|].
      intros x Hx Hp. apply no_post_materializer in Hx. congruence.
    - eapply Forall_impl; [exact F2|].
      intros x Hx Hp. apply no_post_generator in Hx. congruence.
    - eapply Forall_impl; [exact F3 | done].
    - eapply Forall_impl; [exact F4|].
      intros x Hx Hp. apply no_post_publisher in Hx. congruence.
    - exact F5.
    - destruct (notify_and_log result _).2; by repeat constructor. }
  rewrite Forall_forall in F. apply F in Hin'; [|done].
  by injection Hin'.
Qed.

(** C3, as the code has it: a failure of attachment materialization
    (creating the working directory, parsing a data URI, writing a file)
    is not absorbed by the step itself. It reaches the one [catch] of the
    handler, which logs it, and the job ends there: nothing is generated,
    nothing is published and no callback is attempted. *)
Theorem materialization_failure_terminal h o1 e :
  materialize' attachments h = (o1, inl e) ->
  run h = (o1 ++ [ConsoleError (js "Processing failed:") e], inr tt)
  /\ Forall (fun x => downstream_effect x = false) (run h).1.
Proof.
  intros E1.
  pose proof (process_logs h o1 e (job_materialize_fails h o1 e E1)) as J.
  split; [done|]. rewrite J. cbn [fst].
  pose proof (materialize_emits attachments h) as F1. rewrite E1 in F1.
  apply Forall_app_2; [|by repeat constructor].
  eapply Forall_impl; [exact F1 | apply no_downstream_materializer].
Qed.

End Job.

(** *** The Artifact Generator *)

Local Abbreviation generator :=
  (generateFilesWithLLM rev env w decimal JSON_parse JSON_stringify).
Local Abbreviation request_to_backend text attachments :=
  (ChatCompletionsCreate (prompt_of JSON_stringify text attachments)).

(** [JSON.parse(reply_text)] throws: whatever string the reply converts to,
    if it converts at all, is not JSON. *)
Local Abbreviation unparseable reply_text :=
  (forall s, ToString decimal reply_text = inr s -> JSON_parse s = None).

Lemma generator_no_backend brief text attachments h :
  ToString decimal brief = inr text ->
  openai env = false ->
  generator brief attachments h = ([], inr (mock_artifacts rev text)).
Proof.
  intros T O. unfold generateFilesWithLLM, bind, lift, ret.
  by rewrite O, T.
Qed.

Lemma generator_calls brief text attachments h :
  ToString decimal brief = inr text ->
  openai env = true ->
  generator brief attachments h
  = bind (call w (request_to_backend text attachments))
      (fun resp => bind (lift (response_text resp))
                     (fun reply_text =>
                        ret (parse_or_fallback decimal JSON_parse reply_text)))
      h.
Proof.
  intros T O. unfold generateFilesWithLLM. rewrite O. cbn [negb].
  rewrite (bind_returns _ _ h [] (prompt_of JSON_stringify text attachments))
    by (unfold lift, prompt; by rewrite T).
  rewrite app_nil_r. cbn [app].
  by destruct (bind (call w (request_to_backend text attachments)) _ h).
Qed.

Lemma generator_parse_failed brief text attachments h resp reply_text :
  ToString decimal brief = inr text ->
  openai env = true ->
  reply w h (request_to_backend text attachments) = inr resp ->
  response_text resp = inr reply_text ->
  unparseable reply_text ->
  generator brief attachments h
  = ([request_to_backend text attachments], inr parse_failed_artifacts).
Proof.
  intros T O R RT P. rewrite (generator_calls _ text) by done.
  rewrite (bind_returns _ _ h [request_to_backend text attachments] resp)
    by (unfold call; by rewrite R).
  rewrite (bind_returns _ _ _ [] reply_text) by (unfold lift; by rewrite RT).
  unfold parse_or_fallback, JSON_parse_value.
  destruct (ToString decimal reply_text) as [e|s]; [done|].
  by rewrite (P s eq_refl).
Qed.

Lemma generator_call_failed brief text attachments h e :
  ToString decimal brief = inr text ->
  openai env = true ->
  reply w h (request_to_backend text attachments) = inl e ->
  generator brief attachments h
  = ([request_to_backend text attachments], inl e).
Proof.
  intros T O R. rewrite (generator_calls _ text) by done.
  apply bind_throws. unfold call. by rewrite R.
Qed.



(** C2, as the code has it: for a brief whose text is [text] the
    generator returns a deterministic fallback artifact set, without
    throwing, in two cases: no backend is configured, or the reply of the
    backend does not parse as JSON. A failure of the backend call itself
    is thrown past the generator; inside a job, whatever the generator
    throws reaches the one [catch] of the handler, which logs it, and the
    job ends without repository creation and without notification. *)
Theorem generator_failure_modes brief text attachments h :
  ToString decimal brief = inr text ->
  (openai env = false ->
     generator brief attachments h = ([], inr (mock_artifacts rev text)))
  /\ (openai env = true ->
      forall resp reply_text,
        reply w h (request_to_backend text attachments) = inr resp ->
        response_text resp = inr reply_text ->
        unparseable reply_text ->
        generator brief attachments h
        = ([request_to_backend text attachments], inr parse_failed_artifacts))
  /\ (openai env = true ->
      forall e,
        reply w h (request_to_backend text attachments) = inl e ->
        generator brief attachments h
        = ([request_to_backend text attachments], inl e))
  /\ (forall email task round nonce brief0 evaluation_url attachments0 o1 o2 e,
        materialize' attachments0 h = (o1, inr tt) ->
        generator (js_or brief0 (JStr (js "Auto app")))
          (js_or attachments0 (JArr [])) (h ++ o1) = (o2, inl e) ->
        process' email task round nonce brief0 evaluation_url attachments0 h
        = (o1 ++ o2 ++ [ConsoleError (js "Processing failed:") e], inr tt)
        /\ Forall (fun x => is_publish x = false /\ is_post x = false)
             (o1 ++ o2 ++ [ConsoleError (js "Processing failed:") e])).
Proof.
  intros T. split_and!.
  - by apply generator_no_backend.
  - intros O resp reply_text. by apply generator_parse_failed.
  - intros O e. by apply generator_call_failed.
  - intros email task round nonce brief0 evaluation_url attachments0 o1 o2 e
      E1 E2.
    assert (generate' brief0 attachments0 (h ++ o1) = (o2, inl e)) as G.
    { unfold generate. by apply bind_throws. }
    pose proof (job_generate_fails email task round nonce brief0
                  evaluation_url attachments0 h o1 o2 e E1 G) as J.
    apply process_logs in J. rewrite <- !app_assoc in J.
    split; [done|].
    pose proof (materialize_emits attachments0 h) as F1.
    pose proof (generate_emits brief0 attachments0 (h ++ o1)) as F2.
    rewrite E1 in F1. rewrite G in F2.
    repeat apply Forall_app_2; [| |by repeat constructor].
    + eapply Forall_impl; [exact F1|]. intros x Hx. by destruct x.
    + eapply Forall_impl; [exact F2|]. apply no_publish_generator.
Qed.

End Pipeline.

(** ** The statements on the sample surroundings *)

Import Sample.

(** C1 on a target that refuses or answers 500 for five attempts and
    would accept a sixth, and on one that answers 200 at once. *)
Lemma notifier_retry_policy_witness :
  (notifyEvaluationUrl world_down_five_times callback payload
     default_maxRetries []).2
  = inl (Error (js "Failed to notify evaluation_url after retries"))
  /\ attempts (notifyEvaluationUrl world_down_five_times callback payload
                 default_maxRetries []).1 = 5%nat
  /\ delays_between_attempts
       (notifyEvaluationUrl world_down_five_times callback payload
          default_maxRetries []).1 = [1000; 2000; 4000; 8000]%float
  /\ notifyEvaluationUrl world_ok callback payload default_maxRetries []
     = ([AxiosPost callback payload], inr JNull).
Proof.
  destruct (notifier_retry_policy world_down_five_times callback payload [])
    as [failing _].
  destruct (notifier_retry_policy world_ok callback payload [])
    as [_ succeeding].
  destruct failing as (run & five & gaps).
  { intros k Hk.
    do 5 (destruct k as [|k];
          [vm_compute; first [exact I | intros [_ C]; discriminate C]|]).
    lia. }
  destruct (succeeding ok_response) as (once & _).
  { split; [reflexivity | simpl; lia]. }
  exact (conj (f_equal snd run) (conj five (conj gaps once))).
Defined.

(** C4 on the sample request without its nonce. *)
Lemma missing_field_rejected_witness :
  field request_without_nonce "nonce" = None
  /\ api_endpoint server_js env_offline world_ok decimal reject_all stringify_empty
       join dirname request_without_nonce []
     = ([Respond 400 (JObj [(js "error", JStr (js "missing required fields"))])],
        inr tt).
Proof.
  split; [reflexivity|].
  refine (proj1 (missing_field_rejected server_js env_offline world_ok decimal
                   reject_all stringify_empty join dirname
                   request_without_nonce "nonce" [] _ eq_refl)).
  repeat constructor.
Defined.

(** C10 on the sample request with round 0. *)
Lemma falsy_field_rejected_witness :
  field request_round_zero "round" = Some (JNum 0%float)
  /\ api_endpoint server_js env_offline world_ok decimal reject_all stringify_empty
       join dirname request_round_zero []
     = ([Respond 400 (JObj [(js "error", JStr (js "missing required fields"))])],
        inr tt).
Proof.
  split; [reflexivity|].
  refine (proj1 (falsy_field_rejected server_js env_offline world_ok decimal
                   reject_all stringify_empty join dirname
                   request_round_zero "round" (JNum 0%float) [] _ eq_refl eq_refl)).
  repeat constructor.
Defined.

(** C5 on the sample request, and on the same request with another
    secret. *)
Lemma secret_gate_witness :
  api_endpoint server_js env_offline world_ok decimal reject_all stringify_empty
    join dirname request_wrong_secret []
  = ([Respond 401 (JObj [(js "error", JStr (js "invalid secret"))])], inr tt)
  /\ exists rest,
       (api_endpoint server_js env_offline world_ok decimal reject_all stringify_empty
          join dirname request []).1
       = Respond 200 (JObj [(js "status", JStr (js "accepted"))])
           :: TmpDirSync :: rest.
Proof.
  split.
  - destruct (secret_gate server_js env_offline world_ok decimal reject_all
                stringify_empty join dirname request_wrong_secret [] eq_refl)
      as [wrong _].
    apply wrong. vm_compute. discriminate.
  - destruct (secret_gate server_js env_offline world_ok decimal reject_all
                stringify_empty join dirname request [] eq_refl)
      as [_ right].
    destruct right as (rest & E & _); [vm_compute; reflexivity|].
    by exists rest.
Defined.

(** C6 on a repository host that refuses the name. *)
Lemma publish_failure_terminal_witness :
  process server_js env_offline world_name_taken decimal reject_all stringify_empty
    join dirname email task round nonce brief callback JUndefined []
  = ([TmpDirSync; FsEnsureDir (JStr (js "/tmp/job"));
      ReposCreateForAuthenticatedUser (js "my-task-yw3v28");
      ConsoleError (js "Processing failed:") name_taken], inr tt)
  /\ attempts
       (process server_js env_offline world_name_taken decimal reject_all
          stringify_empty join dirname email task round nonce brief callback
          JUndefined []).1 = 0%nat.
Proof.
  edestruct (publish_failure_terminal server_js env_offline world_name_taken decimal
               reject_all stringify_empty join dirname email task round nonce
               brief callback JUndefined [])
    as (trace & none & _); [reflexivity..|].
  split; [exact trace | exact none].
Defined.

(** C7 on the task name of the specification. *)
Lemma repoName_shape_witness :
  repoName world_ok (JStr (js "Hello, World! 2024")) []
  = ([], inr (js "hello--world--2024-yw3v28"))
  /\ Forall (fun c => is_slug_char c = true) (js "hello--world--2024-yw3v28")
  /\ base36_value (timestamp_fragment time) = Z.to_N time mod 36 ^ 6
  /\ length (timestamp_fragment time) = 6%nat.
Proof.
  destruct (repoName_shape world_ok (js "Hello, World! 2024") [])
    as (name & _ & chars & _ & reads & six & _).
  - discriminate.
  - destruct six as [six _]; [vm_compute; discriminate|].
    refine (conj name (conj chars (conj (reads _) six))).
    vm_compute. discriminate.
Defined.

(** C9 on a job whose callback is refused at the first attempt, answered
    503 at the second and acknowledged at the third: three posts, one
    payload. *)
Lemma callback_payload_fixed_witness :
  filter is_post
    (process part_000 env_offline world_flaky decimal reject_all stringify_empty
       join dirname email task round nonce brief callback JUndefined []).1
  = replicate 3
      (AxiosPost callback
         (JObj [(js "email", email); (js "task", task); (js "round", round);
                (js "nonce", nonce);
                (js "repo_url", JStr (js "https://host/u/my-task-yw3v28"));
                (js "commit_sha", JStr (js "abc123"));
                (js "deploy_url", JNull)]))
  /\ forall u b,
       AxiosPost u b
         ∈ (process part_000 env_offline world_flaky decimal reject_all
              stringify_empty join dirname email task round nonce brief
              callback JUndefined []).1 ->
       u = callback
       /\ b = JObj [(js "email", email); (js "task", task); (js "round", round);
                    (js "nonce", nonce);
                    (js "repo_url", JStr (js "https://host/u/my-task-yw3v28"));
                    (js "commit_sha", JStr (js "abc123"));
                    (js "deploy_url", JNull)].
Proof.
  split; [reflexivity|].
  destruct (callback_payload_fixed part_000 env_offline world_flaky decimal
              reject_all stringify_empty join dirname email task round nonce
              brief callback JUndefined [])
    as (o1 & o2 & artifacts & o3 & name & o4 & result
        & E1 & E2 & E3 & E4 & same).
  - vm_compute. discriminate.
  - injection E1 as <-. injection E2 as <- <-. injection E3 as <- <-.
    injection E4 as <- <-. exact same.
Defined.

(** C3 on a request whose attachment the data-URI parser rejects. *)
Lemma materialization_failure_terminal_witness :
  process server_js env_backend world_bad_attachment decimal reject_all stringify_empty
    join dirname email task round nonce brief callback (JArr [attachment]) []
  = ([TmpDirSync; FsEnsureDir (JStr (js "/tmp/job"));
      DataUriParse (JStr (js "data:image/png;base64,AAAA"));
      ConsoleError (js "Processing failed:") bad_data_uri], inr tt).
Proof.
  edestruct (materialization_failure_terminal server_js env_backend
               world_bad_attachment decimal reject_all stringify_empty join dirname
               email task round nonce brief callback (JArr [attachment]) [])
    as (trace & _); [reflexivity|].
  exact trace.
Defined.


(** C2, as the code has it, on the same two surroundings and on a backend
    that is down. *)
Lemma generator_failure_modes_witness :
  generateFilesWithLLM server_js env_offline world_ok decimal reject_all
    stringify_empty brief (JArr []) []
  = ([], inr (mock_artifacts server_js brief_text))
  /\ generateFilesWithLLM server_js env_backend world_ok decimal reject_all
       stringify_empty brief (JArr []) []
     = ([ChatCompletionsCreate (prompt_of stringify_empty brief_text (JArr []))],
        inr parse_failed_artifacts)
  /\ generateFilesWithLLM server_js env_backend world_backend_down decimal reject_all
       stringify_empty brief (JArr []) []
     = ([ChatCompletionsCreate (prompt_of stringify_empty brief_text (JArr []))],
        inl backend_down)
  /\ process server_js env_backend world_backend_down decimal reject_all
       stringify_empty join dirname email task round nonce brief callback
       JUndefined []
     = ([TmpDirSync; FsEnsureDir (JStr (js "/tmp/job"));
         ChatCompletionsCreate (prompt_of stringify_empty brief_text (JArr []));
         ConsoleError (js "Processing failed:") backend_down], inr tt).
Proof.
  destruct (generator_failure_modes server_js env_offline world_ok decimal reject_all
              stringify_empty join dirname brief brief_text (JArr []) [] eq_refl)
    as (offline & _).
  destruct (generator_failure_modes server_js env_backend world_ok decimal reject_all
              stringify_empty join dirname brief brief_text (JArr []) [] eq_refl)
    as (_ & garbage & _).
  destruct (generator_failure_modes server_js env_backend world_backend_down decimal
              reject_all stringify_empty join dirname brief brief_text (JArr []) []
              eq_refl)
    as (_ & _ & down & logged).
  edestruct (logged email task round nonce brief callback JUndefined)
    as (trace & _); [reflexivity..|].
  exact (conj (offline eq_refl)
           (conj (garbage eq_refl _ _ eq_refl eq_refl (fun _ _ => eq_refl))
              (conj (down eq_refl _ eq_refl) trace))).
Defined.

(** ** Where the specification and the code part *)

(** C2 as stated fails: with a backend configured and down, the generator
    throws instead of returning a fallback artifact set, and the job of the
    sample request ends after the backend call: no repository is created and
    no callback is attempted. *)
Lemma generator_raises_on_backend_failure :
  generateFilesWithLLM server_js env_backend world_backend_down decimal reject_all
    stringify_empty brief (JArr []) []
  = ([ChatCompletionsCreate (prompt_of stringify_empty brief_text (JArr []))],
     inl backend_down)
  /\ ~ (exists o artifacts,
          generateFilesWithLLM server_js env_backend world_backend_down decimal
            reject_all stringify_empty brief (JArr []) []
          = (o, inr artifacts))
  /\ (api_endpoint server_js env_backend world_backend_down decimal reject_all
        stringify_empty join dirname request []).1
     = [Respond 200 (JObj [(js "status", JStr (js "accepted"))]);
        TmpDirSync; FsEnsureDir (JStr (js "/tmp/job"));
        ChatCompletionsCreate (prompt_of stringify_empty brief_text (JArr []));
        ConsoleError (js "Processing failed:") backend_down]
  /\ filter (fun e => is_publish e || is_post e)
       (api_endpoint server_js env_backend world_backend_down decimal reject_all
          stringify_empty join dirname request []).1 = [].
Proof.
  split_and!.
  - vm_compute. reflexivity.
  - intros (o & artifacts & E). vm_compute in E. discriminate.
  - vm_compute. reflexivity.
  - vm_compute. reflexivity.
Qed.

(** C3 as stated fails: when the data-URI parser rejects the attachment of
    an accepted request, the job ends with the error logged; nothing is
    generated, no repository is created and no callback is attempted. *)
Lemma materialization_failure_ends_job :
  (api_endpoint server_js env_backend world_bad_attachment decimal reject_all
     stringify_empty join dirname request_with_attachment []).1
  = [Respond 200 (JObj [(js "status", JStr (js "accepted"))]);
     TmpDirSync; FsEnsureDir (JStr (js "/tmp/job"));
     DataUriParse (JStr (js "data:image/png;base64,AAAA"));
     ConsoleError (js "Processing failed:") bad_data_uri]
  /\ filter downstream_effect
       (api_endpoint server_js env_backend world_bad_attachment decimal reject_all
          stringify_empty join dirname request_with_attachment []).1 = [].
Proof. split; vm_compute; reflexivity. Qed.

(** C5 as stated fails: the sample request with round 0 carries all five
    required fields and the expected secret, and it is answered 400, not
    accepted; with a wrong secret it is answered 400 as well, not 401. *)
Lemma present_fields_not_enough :
  Forall (fun k => is_Some (field request_round_zero k)) required_fields
  /\ prop request_round_zero "secret"
     = JStr (expected_secret env_offline (prop request_round_zero "email"))
  /\ api_endpoint server_js env_offline world_ok decimal reject_all
       stringify_empty join dirname request_round_zero []
     = ([Respond 400 (JObj [(js "error", JStr (js "missing required fields"))])],
        inr tt)
  /\ Forall (fun k => is_Some (field request_round_zero_guess k)) required_fields
  /\ prop request_round_zero_guess "secret"
     <> JStr (expected_secret env_offline (prop request_round_zero_guess "email"))
  /\ api_endpoint server_js env_offline world_ok decimal reject_all
       stringify_empty join dirname request_round_zero_guess []
     = ([Respond 400 (JObj [(js "error", JStr (js "missing required fields"))])],
        inr tt).
Proof.
  split_and!.
  - repeat constructor; by eexists.
  - vm_compute. reflexivity.
  - vm_compute. reflexivity.
  - repeat constructor; by eexists.
  - vm_compute. discriminate.
  - vm_compute. reflexivity.
Qed.

(** ** More on running computations *)

Section Inversion.

Context {A B : Type}.

(** A [bind] that returns has run both of its parts. *)
Lemma bind_inv_returns (m : M A) (k : A -> M B) h o b :
  bind m k h = (o, inr b) ->
  exists o1 a o2,
    m h = (o1, inr a) /\ k a (h ++ o1) = (o2, inr b) /\ o = o1 ++ o2.
Proof.
  unfold bind. destruct (m h) as [o1 [e|a]]; [discriminate|].
  destruct (k a (h ++ o1)) as [o2 r] eqn:K. intros [= <- ->].
  by exists o1, a, o2.
Qed.

(** A [bind] that throws was stopped in its first part or in its second. *)
Lemma bind_inv_throws (m : M A) (k : A -> M B) h o e :
  bind m k h = (o, inl e) ->
  m h = (o, inl e)
  \/ exists o1 a o2,
       m h = (o1, inr a) /\ k a (h ++ o1) = (o2, inl e) /\ o = o1 ++ o2.
Proof.
  unfold bind. destruct (m h) as [o1 [e1|a]].
  - intros [= <- <-]. by left.
  - destruct (k a (h ++ o1)) as [o2 r] eqn:K. intros [= <- ->].
    right. by exists o1, a, o2.
Qed.

End Inversion.

Lemma call_inv_returns w e h o v :
  call w e h = (o, inr v) -> o = [e] /\ reply w h e = inr v.
Proof. unfold call. by intros [= <- ->]. Qed.

Lemma lift_inv {A} (r : Exn + A) h o r' : lift r h = (o, r') -> o = [] /\ r' = r.
Proof. unfold lift. by intros [= <- <-]. Qed.

Lemma attempts_cons e tr :
  attempts (e :: tr) = (if is_post e then S (attempts tr) else attempts tr).
Proof.
  unfold attempts. rewrite filter_cons.
  destruct (is_post e); by destruct (decide _).
Qed.

Lemma attempts_app tr1 tr2 : attempts (tr1 ++ tr2) = (attempts tr1 + attempts tr2)%nat.
Proof. unfold attempts. by rewrite filter_app, length_app. Qed.

(** ** The Callback Notifier, for every retry budget and every target *)

Section NotifierInGeneral.

Variable w : World.
Variables evaluation_url body : JSValue.

Local Abbreviation post := (AxiosPost evaluation_url body).
Local Abbreviation failures := (failed_attempts evaluation_url body).
Local Abbreviation answer h := (http w h evaluation_url body).

Lemma attempts_failed_attempts k : forall delay,
  attempts (failures k delay) = k.
Proof.
  induction k as [|k IH]; intros delay; [done|].
  cbn [failed_attempts]. rewrite !attempts_cons. cbn [is_post].
  by rewrite IH.
Qed.

Lemma backoff_succ (delay : Z) k :
  ((fun i => delay * 2 ^ Z.of_nat i)%Z <$> seq 0 (S k))
  = delay :: ((fun i => (delay * 2) * 2 ^ Z.of_nat i)%Z <$> seq 0 k).
Proof.
  cbn [seq fmap list_fmap]. f_equal; [simpl; lia|].
  rewrite <- fmap_S_seq, <- list_fmap_compose.
  apply list_fmap_ext. intros _ i _. cbn.
  rewrite Nat2Z.inj_succ, Z.pow_succ_r by lia. lia.
Qed.

(** The loop from any starting wait: a number of failed attempts with
    their waits, then either a delivered attempt, whose data is returned,
    or, with the budget used up, the error. *)
Lemma notify_loop_shape n : forall delay h,
  exists failed,
    (forall k, (k < failed)%nat -> attempt_fails (answer (h ++ failures k delay)))
    /\ ((exists resp,
           attempt_succeeds (answer (h ++ failures failed delay)) resp
           /\ notify_loop w evaluation_url body n delay h
              = (failures failed delay ++ [post], inr (data resp))
           /\ (failed < n)%nat)
        \/ (notify_loop w evaluation_url body n delay h
            = (failures n delay,
               inl (Error (js "Failed to notify evaluation_url after retries")))
            /\ failed = n)).
Proof.
  induction n as [|n IH]; intros delay h.
  - exists 0%nat. split; [lia|]. by right.
  - destruct (delivered (answer h)) as [d|] eqn:D.
    + apply attempt_succeeds_delivered in D as (resp & S & ->).
      exists 0%nat. split; [lia|]. left. exists resp.
      cbn [failed_attempts]. rewrite app_nil_r. split_and!; [done | | lia].
      apply notify_loop_delivered. apply attempt_succeeds_delivered.
      by exists resp.
    + rewrite (notify_loop_retry w evaluation_url body n delay h D).
      destruct (IH (delay * 2)%float (h ++ [post; SetTimeout delay]))
        as (failed & F & R).
      exists (S failed). split.
      * intros [|k] Hk.
        -- cbn [failed_attempts]. rewrite app_nil_r.
           by apply attempt_fails_delivered.
        -- rewrite <- failed_attempts_snoc. apply F. lia.
      * destruct R as [(resp & S & -> & Lt) | (-> & ->)].
        -- left. exists resp. rewrite <- failed_attempts_snoc.
           split_and!; [done | done | lia].
        -- by right.
Qed.

(** X1: whatever the target does and whatever the retry budget is, the
    notifier posts at most [maxRetries] times. Its run is a number of
    failed attempts (each rejected or answered outside 200..299), each
    followed by its wait, the first delay handed to the timer 1000 ms and
    every later one twice the one before; then either one more attempt that is answered 2xx, and
    the data of that very response returned, or, only after [maxRetries]
    failed attempts, the error. *)
Theorem notifier_bounded maxRetries h :
  let run := notifyEvaluationUrl w evaluation_url body maxRetries h in
  (attempts run.1 <= maxRetries)%nat
  /\ exists failed,
       (forall k, (k < failed)%nat ->
          attempt_fails (answer (h ++ failures k 1000)))
       /\ ((exists resp,
              attempt_succeeds (answer (h ++ failures failed 1000)) resp
              /\ run = (failures failed 1000 ++ [post], inr (data resp))
              /\ attempts run.1 = S failed
              /\ (failed < maxRetries)%nat)
           \/ (run = (failures maxRetries 1000,
                      inl (Error (js "Failed to notify evaluation_url after retries")))
               /\ attempts run.1 = maxRetries
               /\ failed = maxRetries)).
Proof.
  intros run. subst run. unfold notifyEvaluationUrl.
  destruct (notify_loop_shape maxRetries 1000%float h) as (failed & F & R).
  assert (attempts (failures failed 1000 ++ [post]) = S failed) as At.
  { rewrite attempts_app, attempts_failed_attempts, attempts_cons.
    cbn [is_post]. change (attempts []) with 0%nat. lia. }
  split.
  - destruct R as [(resp & _ & -> & Lt) | (-> & _)]; cbn [fst].
    + rewrite At. lia.
    + by rewrite attempts_failed_attempts.
  - exists failed. split; [done|].
    destruct R as [(resp & S & -> & Lt) | (-> & ->)].
    + left. by exists resp.
    + right. split_and!; [done | | done]. apply attempts_failed_attempts.
Qed.

Lemma backoff_sum (delay : Z) n :
  foldr Z.add 0%Z ((fun i => delay * 2 ^ Z.of_nat i)%Z <$> seq 0 n)
  = (delay * (2 ^ Z.of_nat n - 1))%Z.
Proof.
  revert delay. induction n as [|n IH]; intros delay.
  - cbn. lia.
  - rewrite backoff_succ. cbn [foldr]. rewrite IH.
    rewrite Nat2Z.inj_succ, Z.pow_succ_r by lia. lia.
Qed.

(** Up to 22 doublings the waits are whole numbers of milliseconds that a
    timer honours. *)
Lemma waits_failed_attempts n :
  (n <= 22)%nat ->
  waits (failures n 1000) = float_of_Z <$> backoff n.
Proof.
  intros Hn.
  do 23 (destruct n as [|n]; [vm_compute; reflexivity|]). lia.
Qed.

Lemma backoff_within n :
  (n <= 22)%nat ->
  Forall (fun ms => (0 < ms <= TIMEOUT_MAX)%Z) (backoff n).
Proof.
  intros Hn. apply Forall_forall. intros ms Hin.
  assert (forallb (fun ms => (0 <? ms) && (ms <=? TIMEOUT_MAX))%Z (backoff n)
          = true) as B.
  { do 23 (destruct n as [|n]; [vm_compute; reflexivity|]). lia. }
  rewrite forallb_forall in B. apply list_elem_of_In in Hin.
  apply B, andb_true_iff in Hin as [B1 B2].
  apply Z.ltb_lt in B1. apply Z.leb_le in B2. done.
Qed.

(** X2: against a target that fails each of the attempts made, for every
    retry budget [n] up to 22, the notifier posts exactly [n] times, waits
    1000 * 2^i ms after attempt i, each wait one a timer honours,
    1000 * (2^n - 1) ms in all (31 seconds for the default budget of 5),
    and then throws; with a budget of 0 it throws without posting. *)
Theorem notifier_exhaustion maxRetries h :
  (maxRetries <= 22)%nat ->
  (forall k, (k < maxRetries)%nat ->
     attempt_fails (answer (h ++ failures k 1000))) ->
  let run := notifyEvaluationUrl w evaluation_url body maxRetries h in
  run = (failures maxRetries 1000,
         inl (Error (js "Failed to notify evaluation_url after retries")))
  /\ attempts run.1 = maxRetries
  /\ waits run.1 = float_of_Z <$> backoff maxRetries
  /\ Forall (fun ms => (0 < ms <= TIMEOUT_MAX)%Z) (backoff maxRetries)
  /\ foldr Z.add 0%Z (backoff maxRetries)
     = (1000 * (2 ^ Z.of_nat maxRetries - 1))%Z
  /\ (maxRetries = 0%nat -> run.1 = []).
Proof.
  intros Hn F run. subst run. unfold notifyEvaluationUrl.
  rewrite (notify_loop_exhausts w evaluation_url body maxRetries 1000 h F).
  cbn [fst snd]. split_and!.
  - done.
  - apply attempts_failed_attempts.
  - by apply waits_failed_attempts.
  - by apply backoff_within.
  - apply backoff_sum.
  - by intros ->.
Qed.

End NotifierInGeneral.

(** ** The front door, for every request *)

Section FrontDoorInGeneral.

Variable rev : Revision.
Variable env : Env.
Variable w : World.
Variable decimal : float -> jsstring.
Variable JSON_parse : jsstring -> option JSValue.
Variable JSON_stringify : JSValue -> jsstring.
Variable path_join : jsstring -> jsstring -> jsstring.
Variable path_dirname : jsstring -> jsstring.

Local Abbreviation endpoint :=
  (api_endpoint rev env w decimal JSON_parse JSON_stringify path_join path_dirname).
Local Abbreviation run :=
  (process rev env w decimal JSON_parse JSON_stringify path_join path_dirname).

(** Whatever the email, the secret that is expected is the default one:
    the only entry of the store holds it too. *)
Lemma expected_is_default email :
  js_or (Map_get (studentSecrets env) email) (JStr (DEFAULT_SECRET env))
  = JStr (DEFAULT_SECRET env).
Proof.
  pose proof (DEFAULT_SECRET_nonempty env) as Hne.
  destruct email as [| | | |e| |]; try reflexivity.
  unfold Map_get, studentSecrets.
  destruct (decide (js "student@example.com" = e)) as [<- | Hd].
  - rewrite lookup_insert_eq. unfold js_or, truthy.
    by destruct (DEFAULT_SECRET env).
  - by rewrite lookup_insert_ne, lookup_empty.
Qed.

(** X3: the secret check does not depend on the email. [verifySecret]
    accepts exactly the requests whose secret is the string
    [DEFAULT_SECRET], for every email, known or unknown; a secret that is
    not a string (a number, null, an array, an absent field) is never
    accepted. *)
Theorem verifySecret_ignores_email email secret :
  (verifySecret env email secret = true <-> secret = JStr (DEFAULT_SECRET env))
  /\ (forall email', verifySecret env email' secret = verifySecret env email secret)
  /\ match secret with
     | JStr _ => True
     | _ => verifySecret env email secret = false
     end.
Proof.
  unfold verifySecret. split_and!.
  - rewrite expected_is_default. apply strict_equals_string.
  - intros email'. by rewrite !expected_is_default.
  - rewrite expected_is_default. by destruct secret.
Qed.

Lemma api_endpoint_incomplete req_body h :
  has_required_fields req_body = false ->
  endpoint req_body h = ([missing_fields_response], inr tt).
Proof.
  unfold has_required_fields, required_fields. cbn [forallb]. intros H.
  assert (forall k, k ∈ required_fields ->
                    match field req_body k with
                    | Some v => truthy v
                    | None => false
                    end = false ->
                    endpoint req_body h = ([missing_fields_response], inr tt))
    as use.
  { intros k Hk Hf. apply api_endpoint_falsy_field with k; [done|].
    rewrite prop_field. by destruct (field req_body k). }
  repeat (apply andb_false_iff in H as [H|H];
          [by eapply use; [|exact H]; unfold required_fields;
              repeat constructor|]).
  discriminate.
Qed.

Lemma process_returns email task round nonce brief evaluation_url attachments h :
  (run email task round nonce brief evaluation_url attachments h).2 = inr tt.
Proof.
  unfold process, try_catch.
  by destruct (job _ _ _ _ _ _ _ _ _ _ _ _ _ _ _ _) as [o [e|[]]].
Qed.

Lemma job_emits_no_response email task round nonce brief evaluation_url attachments :
  emits (fun e => is_respond e = false)
    (job rev env w decimal JSON_parse JSON_stringify path_join path_dirname
       email task round nonce brief evaluation_url attachments).
Proof.
  unfold job, publish_and_notify.
  apply emits_bind; [|intros _; apply emits_bind; [|intros artifacts;
    apply emits_bind; [|intros name; apply emits_bind; [|intros result;
      apply emits_bind; [|intros _]]]]].
  - eapply emits_impl; [|apply materialize_emits]. by intros [].
  - eapply emits_impl; [|apply generate_emits]. by intros [].
  - eapply emits_impl; [|apply repoName_emits]. done.
  - eapply emits_impl; [|apply createGithubRepoAndPush_emits]. by intros [].
  - eapply emits_impl; [|apply notify_loop_emits].
    by intros e [-> | [ms ->]].
  - by apply emits_emit.
Qed.

Lemma process_emits_no_response email task round nonce brief evaluation_url attachments :
  emits (fun e => is_respond e = false)
    (run email task round nonce brief evaluation_url attachments).
Proof.
  apply emits_try_catch; [apply job_emits_no_response|].
  intros e. by apply emits_emit.
Qed.

(** X4: the handler answers every request exactly once, before anything
    else happens, with status 400, 401 or 200, and it never throws; after a
    400 or a 401 nothing else happens at all, so every effect of the
    pipeline comes after the 200 acknowledgement. *)
Theorem endpoint_answers_once req_body h :
  exists code answer rest,
    endpoint req_body h = (Respond code answer :: rest, inr tt)
    /\ (code = 400 \/ code = 401 \/ code = 200)%Z
    /\ Forall (fun e => is_respond e = false) rest
    /\ (code = 200%Z \/ rest = []).
Proof.
  destruct (has_required_fields req_body) eqn:Hall.
  - rewrite (api_endpoint_complete _ _ _ _ _ _ _ _ req_body h Hall).
    destruct (verifySecret env (prop req_body "email") (prop req_body "secret")).
    + eexists 200%Z, _, _. rewrite process_returns.
      split_and!; [reflexivity | auto | | auto].
      apply process_emits_no_response.
    + eexists 401%Z, _, []. split_and!; [reflexivity | auto | done | auto].
  - rewrite (api_endpoint_incomplete req_body h Hall).
    eexists 400%Z, _, []. split_and!; [reflexivity | auto | done | auto].
Qed.

(** X5: the status code as a function of the request: 400 when a required
    field is absent or falsy; otherwise 200 when the secret is the string
    [DEFAULT_SECRET] and 401 when it is anything else. *)
Theorem response_classification req_body h :
  response_code (endpoint req_body h).1
  = Some (if negb (has_required_fields req_body) then 400
          else if strict_equals (prop req_body "secret")
                    (JStr (DEFAULT_SECRET env))
               then 200 else 401)%Z.
Proof.
  destruct (has_required_fields req_body) eqn:Hall; cbn [negb].
  - rewrite (api_endpoint_complete _ _ _ _ _ _ _ _ req_body h Hall).
    unfold verifySecret. rewrite expected_is_default.
    by destruct (strict_equals _ _).
  - by rewrite (api_endpoint_incomplete req_body h Hall).
Qed.

End FrontDoorInGeneral.

(** ** More on repository names *)

Section RepositoryNameInGeneral.

(** X6: [shortName] on the values that are not task names: every falsy
    value (undefined, null, false, 0, the empty string) gives the slug
    [task]; every truthy value that is not a string (a number, true, an
    array, an object) makes it throw a TypeError. *)
Theorem shortName_other_values (v : JSValue) :
  (truthy v = false -> shortName v = inr (js "task"))
  /\ (truthy v = true -> (forall s, v <> JStr s) -> shortName v = inl TypeError).
Proof.
  split.
  - intros F. unfold shortName, js_or. by rewrite F.
  - intros T Hs. unfold shortName, js_or. rewrite T.
    destruct v; try done. by destruct (Hs s).
Qed.

Lemma shortName_string c (s : list N) :
  shortName (JStr (c :: s))
  = inr (slice_to 40 (toLowerCase (replace_outside_class (c :: s)))).
Proof. reflexivity. Qed.

Lemma spec_slug_nonempty (task : list N) : task <> [] -> spec_slug task <> [].
Proof. by destruct task. Qed.

(** X7: the slug of a non-empty task name has as many characters as the
    name, up to 40: no character is dropped or added before the cut, and
    the slug is never empty. *)
Theorem shortName_length (task : list N) :
  task <> [] ->
  exists slug,
    shortName (JStr task) = inr slug
    /\ length slug = (length task `min` 40)%nat
    /\ slug <> [].
Proof.
  intros Hne. destruct task as [|c s]; [done|].
  eexists. split; [apply shortName_string|].
  unfold slice_to, toLowerCase, replace_outside_class.
  assert (length (take 40 (map (fun c0 => if (65 <=? c0) && (c0 <=? 90)
                                          then c0 + 32 else c0)
                             (map (fun c0 => if in_class c0 then c0 else hyphen)
                                (c :: s))))
          = (length (c :: s) `min` 40)%nat) as L.
  { rewrite length_take, !length_map. lia. }
  split; [exact L|].
  intros E. rewrite E in L. cbn [length] in L. lia.
Qed.

Lemma spec_slug_char_fixed c : is_slug_char c = true -> spec_slug_char c = c.
Proof. unfold spec_slug_char. by intros ->. Qed.

Lemma spec_slug_fixed (s : list N) :
  Forall (fun c => is_slug_char c = true) s ->
  (length s <= 40)%nat ->
  spec_slug s = s.
Proof.
  intros Hs Hl. unfold spec_slug.
  rewrite take_ge by (by rewrite length_fmap).
  induction Hs as [|c s Hc _ IH]; [done|].
  cbn [fmap list_fmap]. rewrite spec_slug_char_fixed by done.
  f_equal. apply IH. cbn [length] in Hl. lia.
Qed.

(** X8: the strings that [shortName] leaves alone are exactly the valid
    slugs: a non-empty string is returned unchanged if and only if it is at
    most 40 characters long and holds characters of [a-z0-9-] only. So
    [shortName] is idempotent: applied to a slug it has produced, it
    returns that slug. *)
Theorem shortName_fixed_points (s : list N) :
  s <> [] ->
  (shortName (JStr s) = inr s
   <-> (length s <= 40)%nat /\ Forall (fun c => is_slug_char c = true) s)
  /\ (forall slug, shortName (JStr s) = inr slug ->
                   shortName (JStr slug) = inr slug).
Proof.
  intros Hne.
  assert (forall t : list N,
             (length (spec_slug t) <= 40)%nat
             /\ Forall (fun c => is_slug_char c = true) (spec_slug t)) as ok.
  { intros t. unfold spec_slug. split.
    - rewrite length_take. lia.
    - apply Forall_take, Forall_fmap, Forall_true. intros c.
      apply spec_slug_char_ok. }
  split.
  - rewrite (shortName_spec_slug s Hne). split.
    + intros [= E]. rewrite <- E. apply ok.
    + intros [Hl Hs]. f_equal. by apply spec_slug_fixed.
  - intros slug. rewrite (shortName_spec_slug s Hne). intros [= <-].
    assert (spec_slug s <> []) as Hne'.
    { by apply spec_slug_nonempty. }
    rewrite (shortName_spec_slug _ Hne'). f_equal.
    destruct (ok s). by apply spec_slug_fixed.
Qed.

(** X9: the timestamp fragment of a repository name, read back as a
    base-36 number, is the clock reading modulo 36^6: the fragment keeps
    the low six digits of the reading and nothing else. *)
Theorem timestamp_fragment_value t :
  (0 <= t)%Z ->
  base36_value (timestamp_fragment t) = Z.to_N t mod 36 ^ 6.
Proof.
  intros Ht. unfold timestamp_fragment.
  destruct (Number_toString_36_value t Ht) as [Hd Hv].
  rewrite base36_value_slice_last, Hv; [done|].
  rewrite Hd. apply radix_digits_base36.
Qed.

Lemma repoName_run w (task : list N) h :
  task <> [] ->
  repoName w (JStr task) h
  = ([], inr (spec_slug task ++ js "-" ++ timestamp_fragment (clock w h))).
Proof.
  intros Hne. unfold repoName.
  rewrite (bind_returns _ _ h [] (spec_slug task))
    by (unfold lift; by rewrite shortName_spec_slug).
  unfold bind, Date_now, ret. cbn [fst snd app].
  by rewrite !app_nil_r.
Qed.

(** X10: when two jobs for the same task name get the same repository
    name, their clock readings agree modulo 36^6 ms. So two readings that
    differ, but by less than 36^6 ms (about 25 days), give different names;
    two jobs that read the same millisecond get the same name. *)
Theorem repoName_collisions w (task : list N) h1 h2 :
  task <> [] ->
  (0 <= clock w h1)%Z ->
  (0 <= clock w h2)%Z ->
  (repoName w (JStr task) h1 = repoName w (JStr task) h2 ->
   (clock w h1 mod 36 ^ 6 = clock w h2 mod 36 ^ 6)%Z)
  /\ ((clock w h1 < clock w h2 < clock w h1 + 36 ^ 6)%Z ->
      repoName w (JStr task) h1 <> repoName w (JStr task) h2)
  /\ (clock w h1 = clock w h2 ->
      repoName w (JStr task) h1 = repoName w (JStr task) h2).
Proof.
  intros Hne H1 H2.
  assert (repoName w (JStr task) h1 = repoName w (JStr task) h2 ->
          (clock w h1 mod 36 ^ 6 = clock w h2 mod 36 ^ 6)%Z) as same.
  { rewrite !repoName_run by done. intros [= E].
    apply app_inv_head in E. apply (app_inv_head (js "-")) in E.
    pose proof (timestamp_fragment_reads (clock w h1) H1) as V1.
    pose proof (timestamp_fragment_reads (clock w h2) H2) as V2.
    rewrite E, V2 in V1.
    apply (f_equal Z.of_N) in V1.
    rewrite !N2Z.inj_mod, !Z2N.id in V1 by done.
    symmetry. exact V1. }
  split_and!; [exact same | |].
  - intros Hd E. apply same in E.
    assert ((clock w h2 - clock w h1) mod 36 ^ 6 = 0)%Z as Z0.
    { rewrite Zminus_mod, E, Z.sub_diag. reflexivity. }
    rewrite Z.mod_small in Z0 by lia. lia.
  - intros E. rewrite !repoName_run by done. by rewrite E.
Qed.

End RepositoryNameInGeneral.

(** ** The Attachment Materializer *)

Section Materializer.

Variable rev : Revision.
Variable w : World.
Variable decimal : float -> jsstring.
Variable path_join : jsstring -> jsstring -> jsstring.

Local Abbreviation loop := (writeAttachments_loop rev w decimal path_join).
Local Abbreviation target := (attachment_target rev decimal path_join).

Lemma member_returns v k x : member v k = inr x -> x = prop v k.
Proof. destruct v; cbn; congruence. Qed.

Lemma filter_complete_cons att atts :
  filter complete_attachment (att :: atts)
  = if complete_attachment att
    then att :: filter complete_attachment atts
    else filter complete_attachment atts.
Proof.
  rewrite filter_cons.
  destruct (complete_attachment att); by destruct (decide _).
Qed.

(** What a successful pass over the attachments has done. *)
Lemma writeAttachments_loop_returns atts targetDir : forall written h o res,
  loop atts targetDir written h = (o, inr res) ->
  res = JArr (written ++ written_paths o)
  /\ written_paths o
     = target targetDir <$> filter complete_attachment atts
  /\ Forall (fun att =>
               exists p,
                 file_path rev decimal path_join targetDir (prop att "name")
                 = inr p)
       (filter complete_attachment atts)
  /\ Forall (fun att => att <> JNull /\ att <> JUndefined) atts.
Proof.
  induction atts as [|att rest IH]; intros written h o res H;
    cbn [writeAttachments_loop] in H.
  - injection H as <- <-. by rewrite app_nil_r.
  - apply bind_inv_returns in H as (o1 & name & o2 & Hm & H & ->).
    apply lift_inv in Hm as [-> Hm]. symmetry in Hm.
    assert (att <> JNull /\ att <> JUndefined) as Hatt
        by (by destruct att).
    apply member_returns in Hm. subst name.
    rewrite filter_complete_cons.
    assert (complete_attachment att
            = truthy (prop att "name") && truthy (prop att "url")) as CA
        by done.
    rewrite CA. clear CA.
    destruct (truthy (prop att "name")), (truthy (prop att "url"));
      cbn [negb orb andb] in *;
      try (apply IH in H as (-> & Hp & Hf & Hn); split_and!; try done;
           by constructor).
    apply bind_inv_returns in H as (o3 & parsed & o4 & Hc & H & ->).
    apply call_inv_returns in Hc as [-> _].
    apply bind_inv_returns in H as (o5 & filePath & o6 & Hf & H & ->).
    apply lift_inv in Hf as [-> Hf].
    apply bind_inv_returns in H as (o7 & content & o8 & Hm & H & ->).
    apply lift_inv in Hm as [-> _].
    apply bind_inv_returns in H as (o9 & written' & o10 & Hc & H & ->).
    apply call_inv_returns in Hc as [-> _].
    apply IH in H as (-> & Hp & Hfs & Hn).
    cbn [app written_paths omap list_omap].
    fold (written_paths o10).
    split_and!; [by rewrite <- app_assoc | | |by constructor].
    + cbn [fmap list_fmap]. rewrite Hp. f_equal.
      unfold attachment_target. by rewrite <- Hf.
    + constructor; [by exists filePath | done].
Qed.

(** X11: when [writeAttachments] returns, it returns exactly the paths of
    the files it has written, in order, and these are the targets of the
    attachments that have both a name and a url, in the order of the list:
    an attachment without a name or without a url is skipped, the others
    are each written once, at the path computed from the target directory
    and their name; for a directory and a name that are strings, that path
    is the directory, a slash and the name as given in [server.js], and
    [path.join] of the two in the other revision. *)
Theorem writeAttachments_returns atts targetDir h o res :
  writeAttachments rev w decimal path_join (JArr atts) targetDir h = (o, inr res) ->
  res = JArr (written_paths o)
  /\ written_paths o = target targetDir <$> filter complete_attachment atts
  /\ Forall (fun att =>
               exists p,
                 file_path rev decimal path_join targetDir (prop att "name")
                 = inr p
                 /\ target targetDir att = JStr p)
       (filter complete_attachment atts)
  /\ (forall dir att name,
        targetDir = JStr dir -> prop att "name" = JStr name ->
        target targetDir att
        = JStr match rev with
               | server_js => dir ++ js "/" ++ name
               | part_000 => path_join dir name
               end).
Proof.
  unfold writeAttachments. intros H.
  apply bind_inv_returns in H as (o1 & x & o2 & Hc & H & ->).
  apply call_inv_returns in Hc as [-> _].
  apply bind_inv_returns in H as (o3 & items & o4 & Hi & H & ->).
  apply lift_inv in Hi as [-> Hi].
  assert (items = atts) as ->.
  { destruct rev; cbn in Hi; congruence. }
  apply writeAttachments_loop_returns in H as (-> & Hp & Hf & _).
  cbn [app written_paths omap list_omap]. fold (written_paths o4).
  split_and!; [done | done | |].
  - eapply Forall_impl; [exact Hf|]. intros att [p E]. exists p.
    split; [done|]. unfold attachment_target. by rewrite E.
  - intros dir att name -> N. unfold attachment_target, file_path.
    rewrite N. by destruct rev.
Qed.

(** X12: the inputs that [writeAttachments] does not write for, once the
    target directory exists: with no attachments (undefined or an empty
    list), or with attachments that all lack a name or a url, it returns
    the empty list and touches nothing else; a value that cannot be
    iterated (an object, a number, true) makes it throw a TypeError before
    any file is written, and so does a list that starts with null; a list
    that holds null (or undefined) anywhere never lets it return. *)
Theorem writeAttachments_edge_cases targetDir h ok :
  reply w h (FsEnsureDir targetDir) = inr ok ->
  writeAttachments rev w decimal path_join JUndefined targetDir h
  = ([FsEnsureDir targetDir], inr (JArr []))
  /\ (forall atts,
        Forall (fun att => complete_attachment att = false
                           /\ att <> JNull /\ att <> JUndefined) atts ->
        writeAttachments rev w decimal path_join (JArr atts) targetDir h
        = ([FsEnsureDir targetDir], inr (JArr [])))
  /\ (forall v,
        truthy v = true -> iterate v = inl TypeError ->
        writeAttachments rev w decimal path_join v targetDir h
        = ([FsEnsureDir targetDir], inl TypeError))
  /\ (forall atts,
        writeAttachments rev w decimal path_join (JArr (JNull :: atts)) targetDir h
        = ([FsEnsureDir targetDir], inl TypeError))
  /\ (forall atts h' o res,
        JNull ∈ atts \/ JUndefined ∈ atts ->
        writeAttachments rev w decimal path_join (JArr atts) targetDir h'
        <> (o, inr res)).
Proof.
  intros R.
  assert (call w (FsEnsureDir targetDir) h
          = ([FsEnsureDir targetDir], inr ok)) as C
      by (unfold call; by rewrite R).
  split_and!.
  - unfold writeAttachments.
    rewrite (bind_returns _ _ h _ ok C).
    by destruct rev.
  - intros atts Hs. unfold writeAttachments.
    rewrite (bind_returns _ _ h _ ok C).
    rewrite (bind_returns _ _ _ [] atts) by (by destruct rev).
    cbn [app fst snd].
    assert (forall written h',
               loop atts targetDir written h' = ([], inr (JArr written))) as L.
    { induction Hs as [|att rest (Hc & Hn & Hu) _ IH]; intros written h';
        cbn [writeAttachments_loop]; [done|].
      rewrite (bind_returns _ _ h' [] (prop att "name"))
        by (by destruct att).
      unfold complete_attachment in Hc. cbn [app fst snd].
      destruct (truthy (prop att "name")), (truthy (prop att "url"));
        cbn [negb orb andb] in *; try done; by rewrite IH. }
    by rewrite L.
  - intros v T I. unfold writeAttachments.
    rewrite (bind_returns _ _ h _ ok C).
    assert (iterate match rev with
                    | server_js =>
                        js_or match v with JUndefined => JArr [] | _ => v end
                          (JArr [])
                    | part_000 => match v with JUndefined => JArr [] | _ => v end
                    end = inl TypeError) as ->.
    { destruct v; try done; destruct rev; try done;
        unfold js_or; by rewrite T. }
    reflexivity.
  - intros atts. unfold writeAttachments.
    rewrite (bind_returns _ _ h _ ok C).
    rewrite (bind_returns _ _ _ [] (JNull :: atts)) by (by destruct rev).
    reflexivity.
  - intros atts h' o res Hin H. unfold writeAttachments in H.
    apply bind_inv_returns in H as (o1 & x & o2 & Hc & H & ->).
    apply bind_inv_returns in H as (o3 & items & o4 & Hi & H & ->).
    apply lift_inv in Hi as [-> Hi].
    assert (items = atts) as ->.
    { destruct rev; cbn in Hi; congruence. }
    apply writeAttachments_loop_returns in H as (_ & _ & _ & Hn).
    rewrite Forall_forall in Hn.
    destruct Hin as [Hin | Hin]; apply Hn in Hin; by destruct Hin.
Qed.

End Materializer.

(** ** The Repository Publisher *)




Section Publisher.

Variable rev : Revision.
Variable env : Env.
Variable w : World.
Variable decimal : float -> jsstring.
Variable path_join : jsstring -> jsstring -> jsstring.
Variable path_dirname : jsstring -> jsstring.

Local Abbreviation publish :=
  (createGithubRepoAndPush rev env w decimal path_join path_dirname).

(** X13: creating the repository is the first thing the publisher does,
    whatever happens next; when the host rejects the creation, that call is
    the only effect: no working directory is made, no file is written and
    git is not started. *)
Theorem publish_creates_first owner name files readme h :
  (exists rest,
     (createGithubRepoAndPush rev env w decimal path_join path_dirname
        owner name files readme h).1
     = ReposCreateForAuthenticatedUser name :: rest)
  /\ (forall e,
        reply w h (ReposCreateForAuthenticatedUser name) = inl e ->
        createGithubRepoAndPush rev env w decimal path_join path_dirname
          owner name files readme h
        = ([ReposCreateForAuthenticatedUser name], inl e)).
Proof.
  split.
  - unfold createGithubRepoAndPush. apply bind_starts. by eexists.
  - intros e R. unfold createGithubRepoAndPush.
    apply bind_throws. unfold call. by rewrite R.
Qed.




End Publisher.

(** Rules for [throws_within]. *)
Section Throwing.

Context {A B : Type}.

Lemma throws_bind_first P (m : M A) (k : A -> M B) :
  throws_within P m -> throws_within P (bind m k).
Proof.
  intros Hm h. destruct (Hm h) as [[e He] F]. unfold bind.
  destruct (m h) as [o [e'|a]]; [|discriminate]. split; [by eexists | done].
Qed.

Lemma throws_bind_then P (m : M A) (k : A -> M B) :
  emits P m -> (forall a, throws_within P (k a)) -> throws_within P (bind m k).
Proof.
  intros Hm Hk h. specialize (Hm h). unfold bind.
  destruct (m h) as [o [e|a]]; [split; [by eexists | done]|].
  destruct (Hk a (h ++ o)) as [[e He] F].
  destruct (k a (h ++ o)) as [o2 r]. cbn [fst snd] in *.
  split; [by eexists | by apply Forall_app].
Qed.

Lemma throws_bind_lift P (r : Exn + A) (k : A -> M B) :
  (forall a, r = inr a -> throws_within P (k a)) ->
  throws_within P (bind (lift r) k).
Proof.
  intros Hk h. unfold bind, lift. destruct r as [e|a].
  - split; [by eexists | done].
  - destruct (Hk a eq_refl (h ++ [])) as [[e He] F].
    destruct (k a (h ++ [])) as [o2 r]. cbn [fst snd] in *.
    split; [by eexists | done].
Qed.

End Throwing.

Section RequireUnbound.

Variable env : Env.
Variable w : World.
Variable decimal : float -> jsstring.
Variable path_join : jsstring -> jsstring -> jsstring.
Variable path_dirname : jsstring -> jsstring.

Hypothesis require_unbound : forall h, exists e, reply w h RequirePath = inl e.

Local Abbreviation quiet := (fun x => is_git x = false /\ is_write x = false).

Lemma throws_require {T} (k : JSValue -> M T) :
  throws_within quiet (bind (call w RequirePath) k).
Proof using require_unbound.
  apply throws_bind_first. intros h. unfold call.
  destruct (require_unbound h) as [e ->]. split; [by eexists|].
  by repeat constructor.
Qed.

Lemma publish_throws_without_require owner name f files readme :
  throws_within quiet
    (createGithubRepoAndPush server_js env w decimal path_join path_dirname
       owner name (JArr (f :: files)) readme).
Proof using require_unbound.
  unfold createGithubRepoAndPush.
  apply throws_bind_then; [by apply emits_call | intros resp].
  apply throws_bind_lift. intros repo _.
  apply throws_bind_then; [by apply emits_call | intros d].
  apply throws_bind_lift. intros tmpDir _.
  apply throws_bind_then; [by apply emits_call | intros _].
  apply throws_bind_lift. intros fs [= <-].
  apply throws_bind_first. cbn [write_files].
  apply throws_bind_lift. intros p _.
  apply throws_bind_lift. intros filePath _.
  apply throws_require.
Qed.

(** X15: in [server.js], where the directory of each artifact file is
    computed through [require('path')], a publish of a list with at least
    one file cannot succeed when [require] is not bound (as in an ES
    module): every run throws, and it throws before any file is written and
    before git is started. *)
Theorem publish_needs_require owner name f files readme h :
  (exists e,
     (createGithubRepoAndPush server_js env w decimal path_join path_dirname
        owner name (JArr (f :: files)) readme h).2 = inl e)
  /\ Forall (fun x => is_git x = false /\ is_write x = false)
       (createGithubRepoAndPush server_js env w decimal path_join path_dirname
          owner name (JArr (f :: files)) readme h).1.
Proof using require_unbound.
  apply publish_throws_without_require.
Qed.

End RequireUnbound.

(** ** The job, for every request and every world *)

Section LogsAtEnd.

Context {A : Type}.

Lemma logs_at_end_bind line (m : M A) (k : A -> M unit) :
  emits (fun e => is_console e = false /\ is_post e = false) m ->
  (forall a, logs_at_end line (k a)) ->
  logs_at_end line (bind m k).
Proof.
  intros Hm Hk h. specialize (Hm h). unfold bind.
  destruct (m h) as [o1 [e|a]]; cbn [fst snd] in *.
  - split.
    + eapply Forall_impl; [exact Hm | by intros ? []].
    + rewrite attempts_none; [lia|].
      eapply Forall_impl; [exact Hm | by intros ? []].
  - specialize (Hk a (h ++ o1)).
    destruct (k a (h ++ o1)) as [o2 [e|[]]]; cbn [fst snd] in *.
    + destruct Hk as [Hc Ha]. split.
      * apply Forall_app. split; [|done].
        eapply Forall_impl; [exact Hm | by intros ? []].
      * rewrite attempts_app, attempts_none; [done|].
        eapply Forall_impl; [exact Hm | by intros ? []].
    + destruct Hk as (body & -> & Hc & Ha).
      exists (o1 ++ body). split_and!.
      * by rewrite app_assoc.
      * apply Forall_app. split; [|done].
        eapply Forall_impl; [exact Hm | by intros ? []].
      * rewrite attempts_app, attempts_none; [cbn; lia|].
        eapply Forall_impl; [exact Hm | by intros ? []].
      * rewrite attempts_app, attempts_none; [cbn; lia|].
        eapply Forall_impl; [exact Hm | by intros ? []].
Qed.

End LogsAtEnd.

Section JobInGeneral.

Variable rev : Revision.
Variable env : Env.
Variable w : World.
Variable decimal : float -> jsstring.
Variable JSON_parse : jsstring -> option JSValue.
Variable JSON_stringify : JSValue -> jsstring.
Variable path_join : jsstring -> jsstring -> jsstring.
Variable path_dirname : jsstring -> jsstring.
Variables email task round nonce brief evaluation_url attachments : JSValue.

Local Abbreviation job' :=
  (job rev env w decimal JSON_parse JSON_stringify path_join path_dirname
     email task round nonce brief evaluation_url attachments).
Local Abbreviation run :=
  (process rev env w decimal JSON_parse JSON_stringify path_join path_dirname
     email task round nonce brief evaluation_url attachments).
Local Abbreviation generate' := (generate rev env w decimal JSON_parse JSON_stringify).
Local Abbreviation notified := (ConsoleLog (js "Notified evaluation_url for") task).

Lemma notify_then_log result :
  logs_at_end notified
    (_ <- notifyEvaluationUrl w evaluation_url
            (notifyBody email task round nonce result) default_maxRetries;;
     emit notified).
Proof.
  intros h. unfold bind, notifyEvaluationUrl.
  pose proof (notify_loop_emits w evaluation_url
                (notifyBody email task round nonce result)
                default_maxRetries 1000%float h) as He.
  destruct (notify_loop_shape w evaluation_url
              (notifyBody email task round nonce result)
              default_maxRetries 1000%float h) as (k & _ & Hr).
  assert (Forall (fun e => is_console e = false)
            (notify_loop w evaluation_url
               (notifyBody email task round nonce result)
               default_maxRetries 1000 h).1) as Hc.
  { eapply Forall_impl; [exact He|]. by intros e [-> | [ms ->]]. }
  assert (match (notify_loop w evaluation_url
                   (notifyBody email task round nonce result)
                   default_maxRetries 1000 h).2 with
          | inr _ => 1 <= attempts (notify_loop w evaluation_url
                                      (notifyBody email task round nonce result)
                                      default_maxRetries 1000 h).1
          | inl _ => True
          end
          /\ attempts (notify_loop w evaluation_url
                         (notifyBody email task round nonce result)
                         default_maxRetries 1000 h).1
             <= default_maxRetries)%nat as [A1 A2].
  { destruct Hr as [(resp & _ & -> & Lt) | (-> & ->)]; cbn [fst snd].
    - rewrite attempts_app, attempts_failed_attempts, attempts_cons.
      cbn [is_post]. change (attempts []) with 0%nat. lia.
    - by rewrite attempts_failed_attempts. }
  destruct (notify_loop _ _ _ _ _ _) as [o [e|d]]; cbn [fst snd] in *.
  - by split.
  - exists o. by split_and!.
Qed.

Lemma job_logs_at_end : logs_at_end notified job'.
Proof.
  unfold job, publish_and_notify.
  apply logs_at_end_bind.
  { eapply emits_impl; [|apply materialize_emits]. by intros []. }
  intros _. apply logs_at_end_bind.
  { eapply emits_impl; [|apply generate_emits]. by intros []. }
  intros artifacts. apply logs_at_end_bind.
  { eapply emits_impl; [|apply repoName_emits]. done. }
  intros name. apply logs_at_end_bind.
  { eapply emits_impl; [|apply createGithubRepoAndPush_emits]. by intros []. }
  intros result. apply notify_then_log.
Qed.

(** X16: every job ends with exactly one console line, its last effect,
    and makes at most five delivery attempts. The line is either the
    success line, after at least one attempt (the job returned: the last
    attempt was delivered), or the [Processing failed:] error line with the
    exception that stopped the job. Nothing else is written to the console,
    and the [try] statement itself never throws. *)
Theorem job_outcome h :
  exists body line,
    run h = (body ++ [line], inr tt)
    /\ Forall (fun e => is_console e = false) body
    /\ (attempts body <= default_maxRetries)%nat
    /\ ((line = ConsoleLog (js "Notified evaluation_url for") task
         /\ (1 <= attempts body)%nat /\ job' h = (body ++ [line], inr tt))
        \/ (exists e, line = ConsoleError (js "Processing failed:") e
                      /\ job' h = (body, inl e))).
Proof.
  pose proof (job_logs_at_end h) as J. unfold process, try_catch.
  destruct (job' h) as [o [e|[]]]; cbn [fst snd] in *.
  - destruct J as [Hc Ha].
    exists o, (ConsoleError (js "Processing failed:") e).
    split_and!; [done | done | done |]. right. by exists e.
  - destruct J as (body & -> & Hc & Ha).
    exists body, notified. split_and!; [done | done | lia |].
    left. split_and!; [done | lia | done].
Qed.

Local Abbreviation effective_brief := (js_or brief (JStr (js "Auto app"))).

Lemma generate_offline text h :
  ToString decimal effective_brief = inr text ->
  openai env = false ->
  generate' brief attachments h
  = ([], inr (JArr [JObj [(js "path", JStr (js "index.html"));
                          (js "content", JStr (mock_page rev text))]],
              JStr (mock_readme text))).
Proof.
  intros T O. unfold generate.
  rewrite (bind_returns _ _ h [] _
             (generator_no_backend rev env w decimal JSON_parse JSON_stringify
                _ text _ h T O)).
  reflexivity.
Qed.

Lemma generate_no_text e h :
  ToString decimal effective_brief = inl e ->
  generate' brief attachments h = ([], inl e).
Proof.
  intros T. unfold generate. apply bind_throws.
  unfold generateFilesWithLLM, prompt.
  destruct (openai env); cbn [negb]; apply bind_throws;
    unfold lift; by rewrite T.
Qed.

(** Without a backend, a generation step that returns hands over one
    file. *)
Lemma generate_offline_returns h o artifacts :
  openai env = false ->
  generate' brief attachments h = (o, inr artifacts) ->
  exists f, artifacts.1 = JArr [f].
Proof.
  intros O G. destruct (ToString decimal effective_brief) as [e|text] eqn:T.
  - by rewrite (generate_no_text e h T) in G.
  - rewrite (generate_offline text h T O) in G. injection G as _ <-.
    by eexists.
Qed.



End JobInGeneral.

(** ** [server.js] without a backend and without [require] *)

Section ThrowingMore.

Context {A B : Type}.

Lemma throws_within_impl (P Q : Effect -> Prop) (m : M A) :
  (forall e, P e -> Q e) -> throws_within P m -> throws_within Q m.
Proof.
  intros HPQ Hm h. destruct (Hm h) as [He F]. split; [done|].
  eapply Forall_impl; [exact F | done].
Qed.

Lemma throws_within_and (P Q : Effect -> Prop) (m : M A) :
  throws_within P m -> emits Q m -> throws_within (fun e => P e /\ Q e) m.
Proof.
  intros Hm Hq h. destruct (Hm h) as [He F]. split; [done|].
  specialize (Hq h). rewrite Forall_forall in F, Hq.
  apply Forall_forall. intros e Hin. split; [by apply F | by apply Hq].
Qed.

Lemma throws_bind_post P (Q : A -> Prop) (m : M A) (k : A -> M B) :
  emits P m ->
  (forall h o a, m h = (o, inr a) -> Q a) ->
  (forall a, Q a -> throws_within P (k a)) ->
  throws_within P (bind m k).
Proof.
  intros Hm Hq Hk h. specialize (Hm h). unfold bind.
  destruct (m h) as [o [e|a]] eqn:E; [split; [by eexists | done]|].
  destruct (Hk a (Hq h o a E) (h ++ o)) as [[e He] F].
  destruct (k a (h ++ o)) as [o2 r]. cbn [fst snd] in *.
  split; [by eexists | by apply Forall_app].
Qed.

End ThrowingMore.

Section OfflineWithoutRequire.

Variable env : Env.
Variable w : World.
Variable decimal : float -> jsstring.
Variable JSON_parse : jsstring -> option JSValue.
Variable JSON_stringify : JSValue -> jsstring.
Variable path_join : jsstring -> jsstring -> jsstring.
Variable path_dirname : jsstring -> jsstring.

Hypothesis offline : openai env = false.
Hypothesis require_unbound : forall h, exists e, reply w h RequirePath = inl e.

(** X18: [server.js] with no generation backend, in a module system that
    binds no [require]: no job ever reaches the callback. The one mock file
    makes the publisher ask for [require('path')], which throws; every job
    ends with the [Processing failed:] line, without a single delivery
    attempt and without git being started. *)
Theorem offline_job_needs_require
    email task round nonce brief evaluation_url attachments h :
  exists body e,
    process server_js env w decimal JSON_parse JSON_stringify path_join path_dirname
      email task round nonce brief evaluation_url attachments h
    = (body ++ [ConsoleError (js "Processing failed:") e], inr tt)
    /\ attempts body = 0%nat
    /\ Forall (fun x => is_git x = false) body.
Proof using offline require_unbound.
  assert (throws_within (fun x => is_post x = false /\ is_git x = false)
            (job server_js env w decimal JSON_parse JSON_stringify path_join
               path_dirname email task round nonce brief evaluation_url
               attachments)) as T.
  { unfold job, publish_and_notify.
    apply throws_bind_then.
    { eapply emits_impl; [|apply materialize_emits]. by intros []. }
    intros _. apply (throws_bind_post _ (fun a => exists f, a.1 = JArr [f])).
    { eapply emits_impl; [|apply generate_emits]. by intros []. }
    { intros h' o a G. by apply generate_offline_returns in G. }
    intros artifacts [f Ha].
    apply throws_bind_then.
    { eapply emits_impl; [|apply repoName_emits]. done. }
    intros name. apply throws_bind_first. rewrite Ha.
    eapply throws_within_impl;
      [|apply throws_within_and;
        [by apply publish_throws_without_require
        |apply createGithubRepoAndPush_emits]].
    intros x [[G _] Pb]. split; [by destruct x | done]. }
  destruct (T h) as [[e He] F].
  destruct (job server_js env w decimal JSON_parse JSON_stringify path_join
              path_dirname email task round nonce brief evaluation_url
              attachments h) as [o r] eqn:J.
  cbn [fst snd] in *. subst r.
  exists o, e. split_and!.
  - by apply process_logs.
  - apply attempts_none. eapply Forall_impl; [exact F | by intros ? []].
  - eapply Forall_impl; [exact F | by intros ? []].
Qed.

End OfflineWithoutRequire.

(** ** What the secret check and the callback never do *)

Section Never.

Variable rev : Revision.
Variable env : Env.
Variable w : World.
Variable decimal : float -> jsstring.
Variable JSON_parse : jsstring -> option JSValue.
Variable JSON_stringify : JSValue -> jsstring.
Variable path_join : jsstring -> jsstring -> jsstring.
Variable path_dirname : jsstring -> jsstring.

(** X19: the empty secret and the absent secret are never accepted,
    whatever the configuration and the email: an unset or empty
    [DEFAULT_SECRET] variable does not switch the check off, it makes
    [demo-secret] the secret that is accepted, for every email. *)
Theorem empty_secret_rejected email :
  verifySecret env email (JStr []) = false
  /\ verifySecret env email JUndefined = false
  /\ match env_DEFAULT_SECRET env with
     | None | Some [] => verifySecret env email (JStr (js "demo-secret")) = true
     | Some (c :: s) => verifySecret env email (JStr (c :: s)) = true
     end.
Proof.
  unfold verifySecret. rewrite expected_is_default.
  pose proof (DEFAULT_SECRET_nonempty env) as Hne.
  split_and!.
  - cbn [strict_equals]. apply bool_decide_eq_false. congruence.
  - reflexivity.
  - unfold DEFAULT_SECRET, env_or.
    destruct (env_DEFAULT_SECRET env) as [[|c s]|]; cbn [strict_equals];
      by apply bool_decide_eq_true.
Qed.

Lemma job_posts email task round nonce brief evaluation_url attachments :
  emits (fun e => is_post e = true ->
                  exists result,
                    e = AxiosPost evaluation_url
                          (notifyBody email task round nonce result))
    (job rev env w decimal JSON_parse JSON_stringify path_join path_dirname
       email task round nonce brief evaluation_url attachments).
Proof.
  unfold job, publish_and_notify.
  apply emits_bind; [|intros _; apply emits_bind; [|intros artifacts;
    apply emits_bind; [|intros name; apply emits_bind; [|intros result;
      apply emits_bind; [|intros _]]]]].
  - eapply emits_impl; [|apply materialize_emits]. by intros [].
  - eapply emits_impl; [|apply generate_emits]. by intros [].
  - eapply emits_impl; [|apply repoName_emits]. done.
  - eapply emits_impl; [|apply createGithubRepoAndPush_emits]. by intros [].
  - eapply emits_impl; [|apply notify_loop_emits].
    intros e [-> | [ms ->]]; [by eexists | discriminate].
  - by apply emits_emit.
Qed.

(** X20: what a job sends to the callback URL. Every POST of a job goes to
    the request's evaluation_url and carries an object with exactly the
    seven keys email, task, round, nonce, repo_url, commit_sha and
    deploy_url, the last one null: the secret, the brief and the
    attachments of the request are never sent. *)
Theorem callback_never_carries_secret
    email task round nonce brief evaluation_url attachments h u b :
  AxiosPost u b
    ∈ (process rev env w decimal JSON_parse JSON_stringify path_join path_dirname
         email task round nonce brief evaluation_url attachments h).1 ->
  u = evaluation_url
  /\ (exists props,
        b = JObj props
        /\ props.*1 = [js "email"; js "task"; js "round"; js "nonce";
                       js "repo_url"; js "commit_sha"; js "deploy_url"])
  /\ field b "deploy_url" = Some JNull
  /\ field b "secret" = None
  /\ field b "brief" = None
  /\ field b "attachments" = None.
Proof.
  intros Hin.
  assert (exists result,
             AxiosPost u b
             = AxiosPost evaluation_url
                 (notifyBody email task round nonce result))
    as [result [= -> ->]].
  { pose proof (emits_try_catch _ _
                  (fun err => emit (ConsoleError (js "Processing failed:") err))
                  (job_posts email task round nonce brief evaluation_url
                     attachments)) as E.
    assert (forall err,
               emits (fun e => is_post e = true ->
                               exists result,
                                 e = AxiosPost evaluation_url
                                       (notifyBody email task round nonce result))
                 (emit (ConsoleError (js "Processing failed:") err))) as L.
    { intros err. apply emits_emit. discriminate. }
    specialize (E L h).
    rewrite Forall_forall in E. by apply (E _ Hin). }
  split_and!; try reflexivity. by eexists.
Qed.

End Never.

(** ** The further statements on the sample surroundings *)

(** X2 with a budget of three attempts. *)
Lemma notifier_exhaustion_witness :
  attempts (notifyEvaluationUrl world_unreachable callback payload 3 []).1 = 3%nat
  /\ waits (notifyEvaluationUrl world_unreachable callback payload 3 []).1
     = [1000; 2000; 4000]%float
  /\ foldr Z.add 0%Z (backoff 3) = 7000%Z.
Proof.
  destruct (notifier_exhaustion world_unreachable callback payload 3 [])
    as (_ & three & gaps & _ & total & _).
  - lia.
  - intros k Hk. vm_compute. intros [_ C]. discriminate C.
  - exact (conj three (conj gaps total)).
Defined.

(** X6 on null and on the number 5. *)
Lemma shortName_other_values_witness :
  shortName JNull = inr (js "task") /\ shortName (JNum 5%float) = inl TypeError.
Proof.
  split.
  - apply (proj1 (shortName_other_values JNull)). reflexivity.
  - apply (proj2 (shortName_other_values (JNum 5%float))); [reflexivity|].
    discriminate.
Defined.

(** X7 and X8 on the task name of the specification and on its slug. *)
Lemma shortName_length_witness :
  exists slug,
    shortName (JStr (js "Hello, World! 2024")) = inr slug
    /\ length slug = 18%nat.
Proof.
  destruct (shortName_length (js "Hello, World! 2024")) as (slug & E & L & _).
  - discriminate.
  - exists slug. split; [exact E | exact L].
Defined.

Lemma shortName_fixed_points_witness :
  shortName (JStr (js "hello--world--2024")) = inr (js "hello--world--2024").
Proof.
  destruct (shortName_fixed_points (js "Hello, World! 2024")) as [_ again].
  - discriminate.
  - apply again. reflexivity.
Defined.

(** X9 on the sample clock reading. *)
Lemma timestamp_fragment_value_witness :
  base36_value (timestamp_fragment time) = 1700000000000 mod 36 ^ 6.
Proof.
  apply (timestamp_fragment_value time). vm_compute. discriminate.
Defined.

(** X10 on two readings of a clock that ticks, one effect apart. *)
Lemma repoName_collisions_witness :
  repoName Scene.world_ticking task [] <> repoName Scene.world_ticking task [TmpDirSync].
Proof.
  destruct (repoName_collisions Scene.world_ticking (js "My Task") []
              [TmpDirSync]) as (_ & apart & _).
  - discriminate.
  - vm_compute. discriminate.
  - vm_compute. discriminate.
  - apply apart. split; vm_compute; reflexivity.
Defined.

(** X11 on three attachments, of which only the second is complete. *)
Lemma writeAttachments_returns_witness :
  exists o,
    writeAttachments server_js world_ok decimal join (JArr Scene.attachments)
      (JStr (js "/tmp/job")) []
    = (o, inr (JArr [JStr (js "/tmp/job/logo.png")]))
    /\ written_paths o = [JStr (js "/tmp/job/logo.png")].
Proof.
  eexists. split; [reflexivity|].
  destruct (writeAttachments_returns server_js world_ok decimal join
              Scene.attachments (JStr (js "/tmp/job")) [] _ _ eq_refl)
    as (_ & paths & _).
  exact paths.
Defined.

(** X12 on an object in place of the list, on incomplete attachments, and
    on a null after a complete attachment, whose file is written before the
    TypeError. *)
Lemma writeAttachments_edge_cases_witness :
  writeAttachments server_js world_ok decimal join (JObj []) (JStr (js "/tmp/job")) []
  = ([FsEnsureDir (JStr (js "/tmp/job"))], inl TypeError)
  /\ writeAttachments server_js world_ok decimal join
       (JArr [Scene.nameless; Scene.no_url]) (JStr (js "/tmp/job")) []
     = ([FsEnsureDir (JStr (js "/tmp/job"))], inr (JArr []))
  /\ writeAttachments server_js world_ok decimal join
       (JArr [attachment; JNull]) (JStr (js "/tmp/job")) []
     = ([FsEnsureDir (JStr (js "/tmp/job"));
         DataUriParse (JStr (js "data:image/png;base64,AAAA"));
         FsWriteFile (JStr (js "/tmp/job/logo.png")) (JStr (js "bytes")) None],
        inl TypeError)
  /\ forall o res,
       writeAttachments server_js world_ok decimal join
         (JArr [attachment; JNull]) (JStr (js "/tmp/job")) []
       <> (o, inr res).
Proof.
  destruct (writeAttachments_edge_cases server_js world_ok decimal join
              (JStr (js "/tmp/job")) [] JUndefined eq_refl)
    as (_ & skipped & not_iterable & _ & holds_null).
  split_and!.
  - apply not_iterable; reflexivity.
  - apply skipped. repeat constructor; discriminate.
  - reflexivity.
  - intros o res. apply holds_null. left. apply list_elem_of_In.
    right. by left.
Defined.

(** X13 on a host that refuses the name. *)
Lemma publish_creates_first_witness :
  createGithubRepoAndPush server_js env_offline world_name_taken decimal join dirname
    JNull (js "my-task-yw3v28") (JArr [Scene.artifact]) JUndefined []
  = ([ReposCreateForAuthenticatedUser (js "my-task-yw3v28")], inl name_taken).
Proof.
  apply (proj2 (publish_creates_first server_js env_offline world_name_taken decimal
                  join dirname JNull (js "my-task-yw3v28")
                  (JArr [Scene.artifact]) JUndefined [])).
  reflexivity.
Defined.


(** X15 and X18 on the sample world, which binds no [require]. *)
Lemma publish_needs_require_witness :
  exists e,
    (createGithubRepoAndPush server_js env_offline world_ok decimal join dirname
       JNull (js "my-task-yw3v28") (JArr [Scene.artifact]) JUndefined []).2
    = inl e.
Proof.
  apply (publish_needs_require env_offline world_ok decimal join dirname
           (fun _ => ex_intro _ ReferenceError eq_refl)
           JNull (js "my-task-yw3v28") Scene.artifact [] JUndefined []).
Defined.

Lemma offline_job_needs_require_witness :
  exists body e,
    process server_js env_offline world_ok decimal reject_all stringify_empty join
      dirname email task round nonce brief callback JUndefined []
    = (body ++ [ConsoleError (js "Processing failed:") e], inr tt)
    /\ attempts body = 0%nat.
Proof.
  destruct (offline_job_needs_require env_offline world_ok decimal reject_all
              stringify_empty join dirname eq_refl
              (fun _ => ex_intro _ ReferenceError eq_refl)
              email task round nonce brief callback JUndefined [])
    as (body & e & E & none & _).
  by exists body, e.
Defined.


(** X20 on a job that publishes and is delivered. *)
Lemma callback_never_carries_secret_witness :
  AxiosPost callback
    (JObj [(js "email", email); (js "task", task); (js "round", round);
           (js "nonce", nonce);
           (js "repo_url", JStr (js "https://host/u/my-task-yw3v28"));
           (js "commit_sha", JStr (js "abc123")); (js "deploy_url", JNull)])
    ∈ (process part_000 env_offline world_ok decimal reject_all stringify_empty join
         dirname email task round nonce brief callback JUndefined []).1
  /\ field
       (JObj [(js "email", email); (js "task", task); (js "round", round);
              (js "nonce", nonce);
              (js "repo_url", JStr (js "https://host/u/my-task-yw3v28"));
              (js "commit_sha", JStr (js "abc123")); (js "deploy_url", JNull)])
       "secret" = None.
Proof.
  assert (AxiosPost callback
            (JObj [(js "email", email); (js "task", task); (js "round", round);
                   (js "nonce", nonce);
                   (js "repo_url", JStr (js "https://host/u/my-task-yw3v28"));
                   (js "commit_sha", JStr (js "abc123")); (js "deploy_url", JNull)])
            ∈ (process part_000 env_offline world_ok decimal reject_all stringify_empty
                 join dirname email task round nonce brief callback JUndefined
                 []).1) as Hin.
  { apply list_elem_of_In. vm_compute.
    repeat (first [left; reflexivity | right]). }
  split; [exact Hin|].
  destruct (callback_never_carries_secret part_000 env_offline world_ok decimal
              reject_all stringify_empty join dirname email task round nonce
              brief callback JUndefined [] _ _ Hin)
    as (_ & _ & _ & no_secret & _).
  exact no_secret.
Defined.
